(** * drdidsynth: the standardized IPW DiD estimator for repeated cross-sections

    A shallow embedding of [pydid/drdid/estimators/std_ipw_did_rc.py].

    The estimator is written once, over an abstract numeric interface
    [Num], and read at two instances:

    - [Num_float], IEEE binary64 ([PrimFloat]), the arithmetic numpy runs:
      it is used to evaluate the program on concrete inputs, in particular
      where 0/0 = NaN decides what is returned;
    - [Num_R], exact real arithmetic, used for the algebraic identities of
      the estimator (rounding is not part of those statements).

    External collaborators (the statsmodels logit solver, numpy's matrix
    inverse and pseudo-inverse, scipy's robust statistics and the two
    bootstrap routines) are the fields of the record [Collab].

    Two things of numpy are outside the model. Sums run left to right, where
    numpy and BLAS choose their own order of additions: the binary64 runs
    below use values that every order sums exactly, or end in NaN, which every
    order propagates. And numpy raises on operands of different lengths,
    where [zip_with] stops at the shorter one: statements that a call returns
    assume arrays of one length ([well_shaped]). *)

From Stdlib Require Import ZArith List Bool String Ascii Reals Lra Lia Floats.
Import ListNotations.

Set Implicit Arguments.

(** ** Numbers *)

(** The operations the source applies to array elements. [ofZ] converts an
    integer (an indicator, a length, the numerator of a decimal literal). *)
Class Num (T : Type) : Type := {
  ofZ : Z -> T;
  nadd : T -> T -> T;
  nsub : T -> T -> T;
  nmul : T -> T -> T;
  ndiv : T -> T -> T;
  nsqrt : T -> T;
  nabs : T -> T;
  nltb : T -> T -> bool;
  isnan : T -> bool
}.

Declare Scope num_scope.
Delimit Scope num_scope with num.
Infix "+" := nadd : num_scope.
Infix "-" := nsub : num_scope.
Infix "*" := nmul : num_scope.
Infix "/" := ndiv : num_scope.
Infix "<?" := nltb : num_scope.

(** Conversion of a Z to a binary64 float, as numpy converts an int64. *)
Definition float_of_Z (z : Z) : float :=
  match z with
  | Z0 => PrimFloat.of_uint63 (Uint63.of_Z 0)
  | Zpos _ => PrimFloat.of_uint63 (Uint63.of_Z z)
  | Zneg p => PrimFloat.opp (PrimFloat.of_uint63 (Uint63.of_Z (Zpos p)))
  end.

#[export] Instance Num_float : Num float := {
  ofZ := float_of_Z;
  nadd := PrimFloat.add;
  nsub := PrimFloat.sub;
  nmul := PrimFloat.mul;
  ndiv := PrimFloat.div;
  nsqrt := PrimFloat.sqrt;
  nabs := PrimFloat.abs;
  nltb := PrimFloat.ltb;
  isnan := PrimFloat.is_nan
}.

Definition Rltb (x y : R) : bool := if Rlt_dec x y then true else false.

#[export] Instance Num_R : Num R := {
  ofZ := IZR;
  nadd := Rplus;
  nsub := Rminus;
  nmul := Rmult;
  ndiv := Rdiv;
  nsqrt := R_sqrt.sqrt;
  nabs := Rabs;
  nltb := Rltb;
  isnan := fun _ => false
}.

(** ** Exceptions and warnings *)

Inductive exn : Type :=
| ValueError (msg : string)
| LinAlgError.

(** A computation emits warnings ([warnings.warn]) and then either raises or
    returns. *)
Definition M (A : Type) : Type := (list string * (exn + A))%type.

Definition ret {A} (a : A) : M A := ([], inr a).
Definition raise {A} (e : exn) : M A := ([], inl e).
Definition warn (msg : string) : M unit := ([msg], inr tt).
Definition bind {A B} (c : M A) (k : A -> M B) : M B :=
  match c with
  | (ws, inl e) => (ws, inl e)
  | (ws, inr a) => let (ws', r) := k a in ((ws ++ ws')%list, r)
  end.

Declare Scope np_scope.
Delimit Scope np_scope with np.
Notation "x <- c ;; k" := (bind c (fun x => k))
  (at level 61, c at next level, right associativity) : np_scope.
Notation "c ;; k" := (bind c (fun _ => k))
  (at level 61, right associativity) : np_scope.

(** ** Arrays *)

Section Arrays.
Context {T : Type} {NT : Num T}.
Local Open Scope num_scope.

Fixpoint zip_with {A B C} (f : A -> B -> C) (xs : list A) (ys : list B) : list C :=
  match xs, ys with
  | x :: xs', y :: ys' => f x y :: zip_with f xs' ys'
  | _, _ => []
  end.

Definition ofbool (b : bool) : T := if b then ofZ 1 else ofZ 0.
Definition ofnat (n : nat) : T := ofZ (Z.of_nat n).

(** [np.sum], [np.mean] of a 1D array. *)
Definition np_sum (xs : list T) : T := fold_left nadd xs (ofZ 0).
Definition np_mean (xs : list T) : T := np_sum xs / ofnat (List.length xs).

(** [np.std(xs, ddof=1)]: the root of the sum of squared deviations over
    [max (n - ddof) 0]. *)
Definition np_std_ddof1 (xs : list T) : T :=
  let arrmean := np_mean xs in
  let x := map (fun v => v - arrmean) xs in
  let x := map (fun v => v * v) x in
  nsqrt (np_sum x / ofZ (Z.max (Z.of_nat (List.length xs) - 1) 0)).

(** [np.clip(x, lo, hi)] as [minimum(maximum(x, lo), hi)]; NaN goes through. *)
Definition np_clip (lo hi x : T) : T :=
  if isnan x then x else
  let m := if x <? lo then lo else x in
  if hi <? m then hi else m.

(** Matrices are lists of rows. *)
Definition ncols (X : list (list T)) : nat :=
  match X with [] => 0%nat | r :: _ => List.length r end.
Definition column (j : nat) (X : list (list T)) : list T :=
  map (fun r => nth j r (ofZ 0)) X.
Definition transpose (X : list (list T)) : list (list T) :=
  map (fun j => column j X) (seq 0 (ncols X)).
Definition dot (u v : list T) : T := np_sum (zip_with nmul u v).
Definition matvec (A : list (list T)) (v : list T) : list T :=
  map (fun r => dot r v) A.
Definition matmul (A B : list (list T)) : list (list T) :=
  let Bt := transpose B in map (fun r => map (dot r) Bt) A.
(** [s[:, np.newaxis] * X]. *)
Definition scale_rows (s : list T) (X : list (list T)) : list (list T) :=
  zip_with (fun si r => map (fun x => si * x) r) s X.
(** [np.mean(X, axis=0)]. *)
Definition mean_axis0 (X : list (list T)) : list T :=
  map np_mean (transpose X).
End Arrays.

(** numpy's element-wise operations: array with array, array with scalar. *)
Notation "a [*] b" := (zip_with nmul a b) (at level 40, left associativity).
Notation "a [/] b" := (zip_with ndiv a b) (at level 40, left associativity).
Notation "a [+] b" := (zip_with nadd a b) (at level 50, left associativity).
Notation "a [-] b" := (zip_with nsub a b) (at level 50, left associativity).
Notation "a [*.] s" := (map (fun x => nmul x s) a) (at level 40, left associativity).
Notation "a [/.] s" := (map (fun x => ndiv x s) a) (at level 40, left associativity).
Notation "a [-.] s" := (map (fun x => nsub x s) a) (at level 50, left associativity).
Notation "s [.-] a" := (map (fun x => nsub s x) a) (at level 50, left associativity).

(** ** Collaborators and results *)

Section Interfaces.
Variable T : Type.

(** What the source reads of statsmodels' fitted logit model. *)
Record LogitResults : Type := {
  converged : bool;
  params : list T;
  predict : list (list T) -> list T
}.

(** The external routines the estimator calls. [linalg_inv] returns [None]
    where numpy raises [LinAlgError]. [mboot_did] and [wboot_std_ipw_rc] are
    the repository's bootstrap routines, taken here at their interface. *)
Record Collab : Type := {
  Logit_fit : list Z -> list (list T) -> list T -> exn + LogitResults;
  linalg_inv : list (list T) -> option (list (list T));
  linalg_pinv : list (list T) -> list (list T);
  mboot_did : list T -> Z -> list T;
  wboot_std_ipw_rc :
    list T -> list Z -> list Z -> list (list T) -> list T -> Z -> T -> list T;
  stats_iqr : list T -> T;
  stats_norm_ppf : T -> T;
  np_nanquantile : list T -> T -> T
}.

(** The [args] dictionary of the result. *)
Record Args : Type := {
  args_panel : bool;
  args_normalized : bool;
  args_boot : bool;
  args_boot_type : string;
  args_nboot : Z;
  args_type : string;
  args_trim_level : T
}.

Record StdIPWDIDRCResult : Type := {
  att : T;
  se : T;
  uci : T;
  lci : T;
  boots : option (list T);
  att_inf_func : option (list T);
  args : Args
}.

(** The four group-period weight vectors. *)
Record WeightSet : Type := {
  w_treat_pre : list T;
  w_treat_post : list T;
  w_cont_pre : list T;
  w_cont_post : list T
}.
End Interfaces.

Arguments Build_LogitResults {T}.
Arguments Build_Collab {T}.
Arguments Build_Args {T}.
Arguments Build_StdIPWDIDRCResult {T}.
Arguments Build_WeightSet {T}.

(** ** The estimator *)

Section Estimator.
Context {T : Type} {NT : Num T}.
Variable E : Collab T.
Local Open Scope num_scope.
Local Open Scope np_scope.

Definition raise_if (b : bool) (e : exn) : M unit :=
  if b then raise e else ret tt.
Definition warn_if (b : bool) (msg : string) : M unit :=
  if b then warn msg else ret tt.

(** The literals [1e-6], [1.96], [0.75], [0.25], [0.95] and the default
    [trim_level=0.995], each the correctly rounded quotient of two integers. *)
Definition lit_1e_6 : T := ofZ 1 / ofZ 1000000.
Definition lit_1_96 : T := ofZ 196 / ofZ 100.
Definition lit_0_75 : T := ofZ 75 / ofZ 100.
Definition lit_0_25 : T := ofZ 25 / ofZ 100.
Definition lit_0_95 : T := ofZ 95 / ofZ 100.
Definition default_trim_level : T := ofZ 995 / ofZ 1000.

Definition msg_negative_weights : string := "i_weights must be non-negative.".
Definition msg_no_treated : string :=
  "No treated units found. Cannot estimate treatment effect.".
Definition msg_no_control : string :=
  "No control units found. Cannot estimate treatment effect.".
Definition msg_no_post : string := "No post-treatment observations found.".
Definition msg_no_pre : string := "No pre-treatment observations found.".
Definition msg_not_converged : string := "GLM algorithm did not converge.".
Definition msg_na_coefficients : string :=
  "Propensity score model coefficients have NA components. "
  ++ String "010" "Multicollinearity (or lack of variation) of covariates is a likely reason.".
Definition msg_singular : string :=
  "Failed to estimate propensity scores due to singular matrix.".
Definition msg_pinv : string :=
  "Failed to invert Hessian matrix. Using pseudo-inverse.".

(** Lines 100-103: the default covariate matrix is a column of ones. *)
Definition covariates_or_ones (n_units : nat) (covariates : option (list (list T)))
  : list (list T) :=
  match covariates with
  | None => repeat [ofZ 1] n_units
  | Some c => c
  end.

(** Lines 105-110: default weights and the sign check. *)
Definition check_weights (n_units : nat) (i_weights : option (list T)) : M (list T) :=
  match i_weights with
  | None => ret (repeat (ofZ 1) n_units)
  | Some w =>
      raise_if (existsb (fun x => x <? ofZ 0) w) (ValueError msg_negative_weights) ;;
      ret w
  end.

(** Line 111. *)
Definition normalize_weights (i_weights : list T) : list T :=
  i_weights [/.] np_mean i_weights.

(** Lines 113-120. *)
Definition check_groups (d post : list Z) : M unit :=
  raise_if (negb (existsb (fun x => (x =? 1)%Z) d)) (ValueError msg_no_treated) ;;
  raise_if (negb (existsb (fun x => (x =? 0)%Z) d)) (ValueError msg_no_control) ;;
  raise_if (negb (existsb (fun x => (x =? 1)%Z) post)) (ValueError msg_no_post) ;;
  raise_if (negb (existsb (fun x => (x =? 0)%Z) post)) (ValueError msg_no_pre).

(** Lines 123-135: the propensity score by MLE. Only [LinAlgError] is caught;
    any other exception of the solver propagates. *)
Definition fit_pscore (d : list Z) (covariates : list (list T)) (i_weights : list T)
  : M (list T) :=
  match Logit_fit E d covariates i_weights with
  | inl LinAlgError => raise (ValueError msg_singular)
  | inl e => raise e
  | inr pscore_results =>
      warn_if (negb (converged pscore_results)) msg_not_converged ;;
      raise_if (existsb isnan (params pscore_results)) (ValueError msg_na_coefficients) ;;
      ret (predict pscore_results covariates)
  end.

(** Lines 141-142: the trimming mask. *)
Definition trim_mask (trim_level : T) (d : list Z) (ps_fit : list T) : list bool :=
  zip_with (fun di p => if (di =? 0)%Z then p <? trim_level else true) d ps_fit.

(** Lines 146-149. *)
Definition build_weights (trim_level : T) (i_weights ps_fit : list T) (d post : list Z)
  : WeightSet T :=
  let trim_ps := map ofbool (trim_mask trim_level d ps_fit) in
  let d1 := map ofZ d in
  let d0 := map (fun x => ofZ (1 - x)) d in
  let post1 := map ofZ post in
  let post0 := map (fun x => ofZ (1 - x)) post in
  {| w_treat_pre := trim_ps [*] i_weights [*] d1 [*] post0;
     w_treat_post := trim_ps [*] i_weights [*] d1 [*] post1;
     w_cont_pre :=
       trim_ps [*] i_weights [*] ps_fit [*] d0 [*] post0 [/] (ofZ 1 [.-] ps_fit);
     w_cont_post :=
       trim_ps [*] i_weights [*] ps_fit [*] d0 [*] post1 [/] (ofZ 1 [.-] ps_fit) |}.

(** Lines 152-161: the summands and the estimate of one cell. *)
Definition eta (w y : list T) : list T := w [*] y [/.] np_mean w.
Definition att_cell (w y : list T) : T := np_mean (eta w y).

(** Line 164. *)
Definition ipw_att_of (W : WeightSet T) (y : list T) : T :=
  (att_cell (w_treat_post W) y - att_cell (w_treat_pre W) y)
  - (att_cell (w_cont_post W) y - att_cell (w_cont_pre W) y).

(** Lines 170-173: the inverse Hessian, with the pseudo-inverse fallback. *)
Definition hessian_of (n_units : nat) (covariates : list (list T)) (ps_weights : list T)
  : M (list (list T)) :=
  let XtWX := matmul (transpose covariates) (scale_rows ps_weights covariates) in
  match linalg_inv E XtWX with
  | Some Hi => ret (map (fun r => r [*.] ofnat n_units) Hi)
  | None =>
      warn msg_pinv ;;
      ret (map (fun r => r [*.] ofnat n_units) (linalg_pinv E XtWX))
  end.

(** Lines 178-179, 184-185: the leading term of one cell. *)
Definition inf_cell (w y : list T) : list T :=
  eta w y [-] (w [*.] att_cell w y [/.] np_mean w).

(** Lines 190-191. *)
Definition m2 (w y : list T) (covariates : list (list T)) : list T :=
  mean_axis0 (scale_rows (w [*] (y [-.] att_cell w y)) covariates) [/.] np_mean w.

(** Lines 168-200: the influence function. *)
Definition influence_function (W : WeightSet T) (y : list T) (d : list Z)
    (covariates : list (list T)) (i_weights ps_fit : list T)
    (hessian_ps : list (list T)) : list T :=
  let score_ps := scale_rows (i_weights [*] (map ofZ d [-] ps_fit)) covariates in
  let asy_lin_rep_ps := matmul score_ps hessian_ps in
  let inf_treat_pre := inf_cell (w_treat_pre W) y in
  let inf_treat_post := inf_cell (w_treat_post W) y in
  let inf_treat := inf_treat_post [-] inf_treat_pre in
  let inf_cont_pre := inf_cell (w_cont_pre W) y in
  let inf_cont_post := inf_cell (w_cont_post W) y in
  let inf_cont := inf_cont_post [-] inf_cont_pre in
  let m2_pre := m2 (w_cont_pre W) y covariates in
  let m2_post := m2 (w_cont_post W) y covariates in
  let inf_cont_ps := matvec asy_lin_rep_ps (m2_post [-] m2_pre) in
  let inf_cont := inf_cont [+] inf_cont_ps in
  inf_treat [-] inf_cont.

(** Lines 202-221: standard error, confidence bounds and bootstrap draws,
    returned as [(se_att, uci, lci, ipw_boot)]. *)
Definition inference (boot : bool) (boot_type : string) (nboot : Z)
    (n_units : nat) (ipw_att : T) (att_inf_func : list T)
    (y : list T) (post d : list Z) (covariates : list (list T))
    (i_weights : list T) (trim_level : T) : T * T * T * option (list T) :=
  if negb boot then
    let se_att := np_std_ddof1 att_inf_func / nsqrt (ofnat n_units) in
    (se_att, ipw_att + lit_1_96 * se_att, ipw_att - lit_1_96 * se_att, None)
  else
    let iqr_norm := stats_norm_ppf E lit_0_75 - stats_norm_ppf E lit_0_25 in
    if String.eqb boot_type "multiplier" then
      let ipw_boot := mboot_did E att_inf_func nboot in
      let se_att := stats_iqr E ipw_boot / iqr_norm in
      let cv := np_nanquantile E (map nabs (ipw_boot [/.] se_att)) lit_0_95 in
      (se_att, ipw_att + cv * se_att, ipw_att - cv * se_att, Some ipw_boot)
    else
      let ipw_boot := wboot_std_ipw_rc E y post d covariates i_weights nboot trim_level in
      let se_att := stats_iqr E (ipw_boot [-.] ipw_att) / iqr_norm in
      let cv :=
        np_nanquantile E (map nabs ((ipw_boot [-.] ipw_att) [/.] se_att)) lit_0_95 in
      (se_att, ipw_att + cv * se_att, ipw_att - cv * se_att, Some ipw_boot).

(** [std_ipw_did_rc], lines 26-244. *)
Definition std_ipw_did_rc (y : list T) (post d : list Z)
    (covariates : option (list (list T))) (i_weights : option (list T))
    (boot : bool) (boot_type : string) (nboot : Z) (influence_func : bool)
    (trim_level : T) : M (StdIPWDIDRCResult T) :=
  let n_units := List.length d in
  let covariates := covariates_or_ones n_units covariates in
  i_weights <- check_weights n_units i_weights ;;
  let i_weights := normalize_weights i_weights in
  check_groups d post ;;
  ps_fit <- fit_pscore d covariates i_weights ;;
  let ps_fit := map (np_clip lit_1e_6 (ofZ 1 - lit_1e_6)) ps_fit in
  let ps_weights := ps_fit [*] (ofZ 1 [.-] ps_fit) [*] i_weights in
  let W := build_weights trim_level i_weights ps_fit d post in
  let ipw_att := ipw_att_of W y in
  hessian_ps <- hessian_of n_units covariates ps_weights ;;
  let att_inf_func :=
    influence_function W y d covariates i_weights ps_fit hessian_ps in
  let '(se_att, uci, lci, ipw_boot) :=
    inference boot boot_type nboot n_units ipw_att att_inf_func
              y post d covariates i_weights trim_level in
  let att_inf_func := if negb influence_func then None else Some att_inf_func in
  let args :=
    {| args_panel := false;
       args_normalized := true;
       args_boot := boot;
       args_boot_type := boot_type;
       args_nboot := nboot;
       args_type := "ipw";
       args_trim_level := trim_level |} in
  ret {| att := ipw_att;
         se := se_att;
         uci := uci;
         lci := lci;
         boots := ipw_boot;
         att_inf_func := att_inf_func;
         args := args |}.
End Estimator.

(** ** What a call computes

    The values a call passes from one stage to the next, named so that
    statements can refer to them: the covariate matrix [X_of], the normalized
    weights [w_of], the clipped propensities [ps_of], the weight set [W_of],
    the inverse Hessian [H_of] and the influence function [inf_of]. *)

Section Run.
Context {T : Type} {NT : Num T}.
Variable E : Collab T.
Local Open Scope num_scope.

(** The checks of lines 109 and 113-120, as predicates on the input. *)
Definition weights_ok (i_weights : option (list T)) : bool :=
  match i_weights with
  | None => true
  | Some w => negb (existsb (fun x => x <? ofZ 0) w)
  end.
Definition groups_ok (d post : list Z) : bool :=
  existsb (fun x => (x =? 1)%Z) d && existsb (fun x => (x =? 0)%Z) d
  && existsb (fun x => (x =? 1)%Z) post && existsb (fun x => (x =? 0)%Z) post.

Definition raw_weights (n_units : nat) (i_weights : option (list T)) : list T :=
  match i_weights with
  | None => repeat (ofZ 1) n_units
  | Some w => w
  end.

Definition X_of (d : list Z) (covariates : option (list (list T))) : list (list T) :=
  covariates_or_ones (List.length d) covariates.
Definition w_of (d : list Z) (i_weights : option (list T)) : list T :=
  normalize_weights (raw_weights (List.length d) i_weights).
Definition ps_of (fit : LogitResults T) (X : list (list T)) : list T :=
  map (np_clip lit_1e_6 (ofZ 1 - lit_1e_6)) (predict fit X).
(** Parallel arrays: the outcome, the indicators, the weights, the rows of
    the covariate matrix and the fitted probabilities have one length. numpy
    raises on operands of different lengths; the statements that a call
    returns are about well-shaped input. *)
Definition well_shaped (fit : LogitResults T) (y : list T) (post d : list Z)
    (covariates : option (list (list T))) (i_weights : option (list T)) : Prop :=
  List.length y = List.length d /\
  List.length post = List.length d /\
  List.length (raw_weights (List.length d) i_weights) = List.length d /\
  List.length (X_of d covariates) = List.length d /\
  List.length (predict fit (X_of d covariates)) = List.length d.

Definition W_of (trim_level : T) (d post : list Z) (w ps : list T) : WeightSet T :=
  build_weights trim_level w ps d post.
Definition XtWX_of (X : list (list T)) (w ps : list T) : list (list T) :=
  matmul (transpose X) (scale_rows (ps [*] (ofZ 1 [.-] ps) [*] w) X).
Definition H_of (n_units : nat) (X : list (list T)) (w ps : list T) : list (list T) :=
  let Hi := match linalg_inv E (XtWX_of X w ps) with
            | Some Hi => Hi
            | None => linalg_pinv E (XtWX_of X w ps)
            end in
  map (fun r => r [*.] ofnat n_units) Hi.
Definition inf_of (trim_level : T) (y : list T) (d post : list Z)
    (X : list (list T)) (w ps : list T) : list T :=
  influence_function (W_of trim_level d post w ps) y d X w ps
                     (H_of (List.length d) X w ps).

(** The warnings of a call that returns. *)
Definition warnings_of (fit : LogitResults T) (X : list (list T)) (w ps : list T)
  : list string :=
  ((if converged fit then [] else [msg_not_converged])
   ++ (match linalg_inv E (XtWX_of X w ps) with
       | Some _ => []
       | None => [msg_pinv]
       end))%list.

(** The result of a call that returns. *)
Definition result_of (fit : LogitResults T) (y : list T) (post d : list Z)
    (covariates : option (list (list T))) (i_weights : option (list T))
    (boot : bool) (boot_type : string) (nboot : Z) (influence_func : bool)
    (trim_level : T) : StdIPWDIDRCResult T :=
  let X := X_of d covariates in
  let w := w_of d i_weights in
  let ps := ps_of fit X in
  let ipw_att := ipw_att_of (W_of trim_level d post w ps) y in
  let inf := inf_of trim_level y d post X w ps in
  let inference_ :=
    inference E boot boot_type nboot (List.length d) ipw_att inf
              y post d X w trim_level in
  {| att := ipw_att;
     se := fst (fst (fst inference_));
     uci := snd (fst (fst inference_));
     lci := snd (fst inference_);
     boots := snd inference_;
     att_inf_func := if negb influence_func then None else Some inf;
     args := {| args_panel := false;
                args_normalized := true;
                args_boot := boot;
                args_boot_type := boot_type;
                args_nboot := nboot;
                args_type := "ipw";
                args_trim_level := trim_level |} |}.
End Run.

(** ** The specification's formulas

    Written from the wording of the specification, to be compared with what
    the code computes. *)

Section Spec.
Context {T : Type} {NT : Num T}.
Local Open Scope num_scope.

(** The Hajek group-period mean, [mean(weight_i * outcome_i) / mean(weight_i)]. *)
Definition hajek_mean (w y : list T) : T := np_mean (w [*] y) / np_mean w.

(** The double difference of the four Hajek means. *)
Definition double_difference (W : WeightSet T) (y : list T) : T :=
  (hajek_mean (w_treat_post W) y - hajek_mean (w_treat_pre W) y)
  - (hajek_mean (w_cont_post W) y - hajek_mean (w_cont_pre W) y).

(** The trimming indicator: 1 for a treated unit, and for a control unit 1
    exactly when its fitted propensity is below the trim level. *)
Definition spec_trim (trim_level : T) (group : Z) (ps : T) : T :=
  if (group =? 1)%Z then ofZ 1
  else if ps <? trim_level then ofZ 1 else ofZ 0.

Definition odds (ps : T) : T := ps / (ofZ 1 - ps).

(** The four weights of one unit. *)
Definition spec_w_treat_pre (trim_level weight ps : T) (group post : Z) : T :=
  spec_trim trim_level group ps * weight * ofZ group * (ofZ 1 - ofZ post).
Definition spec_w_treat_post (trim_level weight ps : T) (group post : Z) : T :=
  spec_trim trim_level group ps * weight * ofZ group * ofZ post.
Definition spec_w_cont_pre (trim_level weight ps : T) (group post : Z) : T :=
  spec_trim trim_level group ps * weight * odds ps
  * (ofZ 1 - ofZ group) * (ofZ 1 - ofZ post).
Definition spec_w_cont_post (trim_level weight ps : T) (group post : Z) : T :=
  spec_trim trim_level group ps * weight * odds ps
  * (ofZ 1 - ofZ group) * ofZ post.

Definition per_unit (f : T -> T -> Z -> Z -> T) (w ps : list T) (d post : list Z)
  : list T :=
  map (fun i => f (nth i w (ofZ 0)) (nth i ps (ofZ 0)) (nth i d 0%Z) (nth i post 0%Z))
      (seq 0 (List.length d)).

Definition spec_weights (trim_level : T) (w ps : list T) (d post : list Z)
  : WeightSet T :=
  {| w_treat_pre := per_unit (spec_w_treat_pre trim_level) w ps d post;
     w_treat_post := per_unit (spec_w_treat_post trim_level) w ps d post;
     w_cont_pre := per_unit (spec_w_cont_pre trim_level) w ps d post;
     w_cont_post := per_unit (spec_w_cont_post trim_level) w ps d post |}.

(** The leading term of a cell at unit [i]:
    [eta_cell - weight_cell * cell_mean / mean(weight_cell)] with
    [eta_cell = weight_cell * outcome / mean(weight_cell)]. *)
Definition spec_leading (w y : list T) (i : nat) : T :=
  let eta_cell := nth i w (ofZ 0) * nth i y (ofZ 0) / np_mean w in
  eta_cell - nth i w (ofZ 0) * hajek_mean w y / np_mean w.

(** [m2_period = mean(weight_cell * (outcome - cell_mean) * covariates, axis=units)
    / mean(weight_cell)]. *)
Definition spec_m2 (w y : list T) (X : list (list T)) : list T :=
  mean_axis0 (scale_rows (w [*] (y [-.] hajek_mean w y)) X) [/.] np_mean w.

(** [score_i = weight_i * (group_i - ps_i) * covariates_i]. *)
Definition spec_score (w ps : list T) (d : list Z) (X : list (list T)) (i : nat)
  : list T :=
  map (fun x => nth i w (ofZ 0) * (ofZ (nth i d 0%Z) - nth i ps (ofZ 0)) * x)
      (nth i X []).

(** The weighted covariate outer product [sum_i omega_i * x_i x_i^T], entry
    by entry. *)
Definition weighted_outer_product (omega : list T) (X : list (list T))
  : list (list T) :=
  map (fun a =>
         map (fun b =>
                np_sum (map (fun i =>
                               nth i omega (ofZ 0)
                               * (nth a (nth i X []) (ofZ 0)
                                  * nth b (nth i X []) (ofZ 0)))
                            (seq 0 (List.length X))))
             (seq 0 (ncols X)))
      (seq 0 (ncols X)).

(** [Hinv]: the outer product weighted by [ps * (1 - ps) * weight], inverted
    or pseudo-inverted, times [n]. *)
Definition spec_hessian_inverse (E : Collab T) (n_units : nat)
    (X : list (list T)) (w ps : list T) : list (list T) :=
  let H := weighted_outer_product (ps [*] (ofZ 1 [.-] ps) [*] w) X in
  let Hi := match linalg_inv E H with
            | Some Hi => Hi
            | None => linalg_pinv E H
            end in
  map (fun r => r [*.] ofnat n_units) Hi.

(** A row vector times a matrix. *)
Definition vecmat (v : list T) (A : list (list T)) : list T :=
  map (dot v) (transpose A).

(** The first-stage correction at unit [i]: the inner product of
    [score_i @ Hinv] with [delta = m2_post - m2_pre]. *)
Definition spec_correction (W : WeightSet T) (y : list T) (d : list Z)
    (X : list (list T)) (w ps : list T) (Hinv : list (list T)) (i : nat) : T :=
  let delta := spec_m2 (w_cont_post W) y X [-] spec_m2 (w_cont_pre W) y X in
  dot (vecmat (spec_score w ps d X i) Hinv) delta.

(** The influence function:
    [(treated_leading) - (control_leading + control_correction)]. *)
Definition spec_influence (W : WeightSet T) (y : list T) (d : list Z)
    (X : list (list T)) (w ps : list T) (Hinv : list (list T)) : list T :=
  map (fun i =>
         (spec_leading (w_treat_post W) y i - spec_leading (w_treat_pre W) y i)
         - ((spec_leading (w_cont_post W) y i - spec_leading (w_cont_pre W) y i)
            + spec_correction W y d X w ps Hinv i))
      (seq 0 (List.length d)).

(** The sample variance, with the [n - 1] denominator. *)
Definition sample_variance (xs : list T) : T :=
  np_sum (map (fun x => (x - np_mean xs) * (x - np_mean xs)) xs)
  / (ofnat (List.length xs) - ofZ 1).

(** 0/1 indicator arrays. *)
Definition binary (l : list Z) : Prop := Forall (fun x => x = 0 \/ x = 1)%Z l.

(** The outcomes of the units of one group and period, and their unweighted
    mean [mean(y | group, period)]. *)
Definition in_cell (group period : Z) (u : T * (Z * Z)) : bool :=
  (fst (snd u) =? group)%Z && (snd (snd u) =? period)%Z.
Definition cell_values (group period : Z) (y : list T) (d post : list Z) : list T :=
  map fst (filter (in_cell group period) (combine y (combine d post))).
Definition cell_mean (group period : Z) (y : list T) (d post : list Z) : T :=
  np_mean (cell_values group period y d post).

(** The simple difference-in-differences of the unweighted cell means. *)
Definition simple_did (y : list T) (d post : list Z) : T :=
  (cell_mean 1 1 y d post - cell_mean 1 0 y d post)
  - (cell_mean 0 1 y d post - cell_mean 0 0 y d post).

(** The result with its influence function removed or replaced. *)
Definition with_inf_func (r : StdIPWDIDRCResult T) (f : option (list T))
  : StdIPWDIDRCResult T :=
  {| att := att r; se := se r; uci := uci r; lci := lci r; boots := boots r;
     att_inf_func := f; args := args r |}.
End Spec.

(** ** Collaborators for the examples

    An intercept-only propensity model: the fit reports the coefficients
    [coef] and predicts the probability [p] for every unit; the inverse of a
    1x1 matrix is its reciprocal, and raises on zero. The bootstrap and
    scipy routines are not exercised by the examples. *)

Section Examples.
Context {T : Type} {NT : Num T}.
Local Open Scope num_scope.

Definition inv_1x1 (A : list (list T)) : option (list (list T)) :=
  match A with
  | [[a]] => if (a <? ofZ 0) || (ofZ 0 <? a) then Some [[ofZ 1 / a]] else None
  | _ => None
  end.

Definition pinv_1x1 (A : list (list T)) : list (list T) :=
  match inv_1x1 A with
  | Some Ai => Ai
  | None => map (map (fun _ => ofZ 0)) A
  end.

Definition intercept_fit (is_converged : bool) (coef : list T) (p : T) : LogitResults T :=
  {| converged := is_converged;
     params := coef;
     predict := fun X => map (fun _ => p) X |}.

Definition intercept_model (is_converged : bool) (coef : list T) (p : T) : Collab T :=
  {| Logit_fit := fun _ _ _ => inr (intercept_fit is_converged coef p);
     linalg_inv := inv_1x1;
     linalg_pinv := pinv_1x1;
     mboot_did := fun _ _ => [];
     wboot_std_ipw_rc := fun _ _ _ _ _ _ _ => [];
     stats_iqr := fun _ => ofZ 0;
     stats_norm_ppf := fun q => q;
     np_nanquantile := fun _ _ => ofZ 0 |}.

(** Four units, one in each group-period cell, with outcomes 5, 1, 3, 2;
    the difference in differences of the cell means is (5 - 1) - (3 - 2). *)
Definition y4 : list T := map ofZ [5; 1; 3; 2]%Z.
Definition post4 : list Z := [1; 0; 1; 0]%Z.
Definition d4 : list Z := [1; 1; 0; 0]%Z.
Definition one_half : T := ofZ 1 / ofZ 2.

(** The balanced intercept-only fit: coefficient 0, probability 1/2. *)
Definition fit4 : LogitResults T := intercept_fit true [ofZ 0] one_half.
Definition model4 : Collab T := intercept_model true [ofZ 0] one_half.

Definition singular_model : Collab T :=
  {| Logit_fit := Logit_fit model4;
     linalg_inv := fun _ => None;
     linalg_pinv := linalg_pinv model4;
     mboot_did := mboot_did model4;
     wboot_std_ipw_rc := wboot_std_ipw_rc model4;
     stats_iqr := stats_iqr model4;
     stats_norm_ppf := stats_norm_ppf model4;
     np_nanquantile := np_nanquantile model4 |}.
End Examples.

(** ** Samples with weight in every cell *)

Section Regular.
Local Open Scope R_scope.

(** Some unit of group [g] and period [t] carries weight: its observation
    weight is positive and, if it is a control unit, its propensity is below
    the trim level. *)
Definition cell_has_weight (trim_level : R) (w ps : list R) (d post : list Z)
    (g t : Z) : Prop :=
  exists i : nat,
    (i < List.length d)%nat /\ nth i d 0%Z = g /\ nth i post 0%Z = t /\
    0 < nth i w 0 /\ (g = 0%Z -> nth i ps 0 < trim_level).

(** Input on which no cell mean is 0/0: 0/1 indicators, arrays of one length,
    non-negative weights, and weight in each of the four cells. *)
Definition regular_input (fit : LogitResults R) (trim_level : R) (y : list R)
    (post d : list Z) (covariates : option (list (list R)))
    (i_weights : option (list R)) : Prop :=
  weights_ok i_weights = true /\
  binary d /\ binary post /\
  well_shaped fit y post d covariates i_weights /\
  let w := raw_weights (List.length d) i_weights in
  let ps := ps_of fit (X_of d covariates) in
  cell_has_weight trim_level w ps d post 1 0 /\
  cell_has_weight trim_level w ps d post 1 1 /\
  cell_has_weight trim_level w ps d post 0 0 /\
  cell_has_weight trim_level w ps d post 0 1.


(** The estimation effect of the propensity score, [inf_cont_ps] of line 194,
    in a call that returns. *)
Definition inf_cont_ps_of (E : Collab R) (trim_level : R) (y : list R)
    (d post : list Z) (X : list (list R)) (w ps : list R) : list R :=
  let W := W_of trim_level d post w ps in
  let score_ps := scale_rows (w [*] (map ofZ d [-] ps)) X in
  let asy_lin_rep_ps := matmul score_ps (H_of E (List.length d) X w ps) in
  matvec asy_lin_rep_ps (m2 (w_cont_post W) y X [-] m2 (w_cont_pre W) y X).
End Regular.

(** * Properties *)

(** ** Stages of a call *)

Section RunFacts.
Context {T : Type} {NT : Num T}.
Variable E : Collab T.
Local Open Scope num_scope.

Lemma check_weights_ok n i_weights :
  weights_ok i_weights = true ->
  check_weights n i_weights = ret (raw_weights n i_weights).
Proof.
  destruct i_weights as [w|]; simpl; [|reflexivity].
  intros Hw. apply negb_true_iff in Hw. unfold raise_if. now rewrite Hw.
Qed.

Lemma check_weights_negative n w :
  existsb (fun x => x <? ofZ 0) w = true ->
  check_weights n (Some w) = raise (ValueError msg_negative_weights).
Proof. intros Hw. simpl. unfold raise_if. now rewrite Hw. Qed.

Lemma check_groups_ok d post :
  groups_ok d post = true -> check_groups d post = ret tt.
Proof.
  unfold groups_ok, check_groups. intros Hg.
  repeat (apply andb_true_iff in Hg; destruct Hg as [Hg ?]).
  repeat match goal with Hx : existsb _ _ = true |- _ => rewrite Hx; clear Hx end.
  reflexivity.
Qed.

Lemma fit_pscore_ok d X w fit :
  Logit_fit E d X w = inr fit ->
  existsb isnan (params fit) = false ->
  fit_pscore E d X w =
  ((if converged fit then [] else [msg_not_converged]), inr (predict fit X)).
Proof.
  intros Hfit Hnan. unfold fit_pscore. rewrite Hfit, Hnan.
  destruct (converged fit); reflexivity.
Qed.

Lemma hessian_of_run n X w ps :
  hessian_of E n X (ps [*] (ofZ 1 [.-] ps) [*] w) =
  (match linalg_inv E (XtWX_of X w ps) with Some _ => [] | None => [msg_pinv] end,
   inr (H_of E n X w ps)).
Proof.
  unfold hessian_of, H_of, XtWX_of.
  destruct (linalg_inv E _); reflexivity.
Qed.

(** A call whose input passes the checks and whose fit has no NaN
    coefficient returns the record [result_of]. *)
Lemma std_ipw_did_rc_run fit y post d covariates i_weights boot boot_type nboot
      influence_func trim_level :
  weights_ok i_weights = true ->
  groups_ok d post = true ->
  Logit_fit E d (X_of d covariates) (w_of d i_weights) = inr fit ->
  existsb isnan (params fit) = false ->
  std_ipw_did_rc E y post d covariates i_weights boot boot_type nboot
                 influence_func trim_level =
  (warnings_of E fit (X_of d covariates) (w_of d i_weights)
                 (ps_of fit (X_of d covariates)),
   inr (result_of E fit y post d covariates i_weights boot boot_type nboot
                  influence_func trim_level)).
Proof.
  intros Hw Hg Hfit Hnan. unfold std_ipw_did_rc.
  rewrite (check_weights_ok _ _ Hw). cbn [bind ret].
  rewrite (check_groups_ok _ _ Hg). cbn [bind ret].
  fold (X_of d covariates). fold (w_of d i_weights).
  rewrite (fit_pscore_ok _ _ _ Hfit Hnan). cbn [bind].
  fold (ps_of fit (X_of d covariates)).
  rewrite hessian_of_run.
  unfold result_of, warnings_of, inf_of, W_of. cbn [bind].
  destruct (inference _ _ _ _ _ _ _ _ _ _ _ _ _) as [[[se_att uci_] lci_] ipw_boot].
  cbn [ret fst snd app]. now rewrite app_nil_r.
Qed.

Lemma existsb_eqb_In (z : Z) (l : list Z) :
  existsb (fun x => (x =? z)%Z) l = true <-> In z l.
Proof.
  rewrite existsb_exists. split.
  - intros [x [Hin Hx]]. apply Z.eqb_eq in Hx. now subst.
  - intros Hin. exists z. split; [assumption | apply Z.eqb_refl].
Qed.


Lemma groups_ok_In d post :
  groups_ok d post = true <-> (In 1 d /\ In 0 d /\ In 1 post /\ In 0 post)%Z.
Proof.
  unfold groups_ok. rewrite !andb_true_iff, !existsb_eqb_In. tauto.
Qed.

(** The first failing check of lines 113-120 decides the message. *)
Lemma check_groups_fail d post :
  groups_ok d post = false ->
  exists msg,
    check_groups d post = raise (ValueError msg) /\
    In msg [msg_no_treated; msg_no_control; msg_no_post; msg_no_pre].
Proof.
  unfold groups_ok, check_groups. intros Hg.
  destruct (existsb (fun x => (x =? 1)%Z) d);
    [|exists msg_no_treated; split; [reflexivity | simpl; tauto]].
  destruct (existsb (fun x => (x =? 0)%Z) d);
    [|exists msg_no_control; split; [reflexivity | simpl; tauto]].
  destruct (existsb (fun x => (x =? 1)%Z) post);
    [|exists msg_no_post; split; [reflexivity | simpl; tauto]].
  destruct (existsb (fun x => (x =? 0)%Z) post); [discriminate|].
  exists msg_no_pre; split; [reflexivity | simpl; tauto].
Qed.

Lemma std_ipw_did_rc_negative_weights y post d covariates i_weights boot boot_type
      nboot influence_func trim_level :
  weights_ok i_weights = false ->
  std_ipw_did_rc E y post d covariates i_weights boot boot_type nboot
                 influence_func trim_level =
  ([], inl (ValueError msg_negative_weights)).
Proof.
  destruct i_weights as [w|]; [|discriminate]. simpl. intros Hw.
  apply negb_false_iff in Hw. unfold std_ipw_did_rc.
  now rewrite (check_weights_negative _ _ Hw).
Qed.

Lemma std_ipw_did_rc_bad_groups y post d covariates i_weights boot boot_type
      nboot influence_func trim_level :
  weights_ok i_weights = true ->
  groups_ok d post = false ->
  exists msg,
    std_ipw_did_rc E y post d covariates i_weights boot boot_type nboot
                   influence_func trim_level = ([], inl (ValueError msg)) /\
    In msg [msg_no_treated; msg_no_control; msg_no_post; msg_no_pre].
Proof.
  intros Hw Hg. destruct (check_groups_fail _ _ Hg) as [msg [Hc Hin]].
  exists msg. split; [|assumption]. unfold std_ipw_did_rc.
  rewrite (check_weights_ok _ _ Hw). cbn [bind ret]. now rewrite Hc.
Qed.

(** The solver's own failure: [LinAlgError] is re-raised as a [ValueError],
    anything else propagates. *)
Lemma std_ipw_did_rc_solver_raises e y post d covariates i_weights boot boot_type
      nboot influence_func trim_level :
  weights_ok i_weights = true ->
  groups_ok d post = true ->
  Logit_fit E d (X_of d covariates) (w_of d i_weights) = inl e ->
  std_ipw_did_rc E y post d covariates i_weights boot boot_type nboot
                 influence_func trim_level =
  ([], inl (match e with LinAlgError => ValueError msg_singular | _ => e end)).
Proof.
  intros Hw Hg Hfit. unfold std_ipw_did_rc.
  rewrite (check_weights_ok _ _ Hw). cbn [bind ret].
  rewrite (check_groups_ok _ _ Hg). cbn [bind ret].
  fold (X_of d covariates). fold (w_of d i_weights).
  unfold fit_pscore. rewrite Hfit. destruct e; reflexivity.
Qed.

Lemma std_ipw_did_rc_nan_coefficient fit y post d covariates i_weights boot
      boot_type nboot influence_func trim_level :
  weights_ok i_weights = true ->
  groups_ok d post = true ->
  Logit_fit E d (X_of d covariates) (w_of d i_weights) = inr fit ->
  existsb isnan (params fit) = true ->
  std_ipw_did_rc E y post d covariates i_weights boot boot_type nboot
                 influence_func trim_level =
  ((if converged fit then [] else [msg_not_converged]),
   inl (ValueError msg_na_coefficients)).
Proof.
  intros Hw Hg Hfit Hnan. unfold std_ipw_did_rc.
  rewrite (check_weights_ok _ _ Hw). cbn [bind ret].
  rewrite (check_groups_ok _ _ Hg). cbn [bind ret].
  fold (X_of d covariates). fold (w_of d i_weights).
  unfold fit_pscore. rewrite Hfit, Hnan.
  destruct (converged fit); reflexivity.
Qed.

(** Every call that returns went through all the checks and returns
    [result_of]. *)
Lemma std_ipw_did_rc_returns y post d covariates i_weights boot boot_type nboot
      influence_func trim_level ws r :
  std_ipw_did_rc E y post d covariates i_weights boot boot_type nboot
                 influence_func trim_level = (ws, inr r) ->
  exists fit,
    weights_ok i_weights = true /\
    groups_ok d post = true /\
    Logit_fit E d (X_of d covariates) (w_of d i_weights) = inr fit /\
    existsb isnan (params fit) = false /\
    ws = warnings_of E fit (X_of d covariates) (w_of d i_weights)
                     (ps_of fit (X_of d covariates)) /\
    r = result_of E fit y post d covariates i_weights boot boot_type nboot
                  influence_func trim_level.
Proof.
  intros Hrun.
  destruct (weights_ok i_weights) eqn:Hw.
  2:{ erewrite std_ipw_did_rc_negative_weights in Hrun by eassumption.
      discriminate. }
  destruct (groups_ok d post) eqn:Hg.
  2:{ destruct (std_ipw_did_rc_bad_groups y _ _ covariates _ boot boot_type nboot
                 influence_func trim_level Hw Hg) as [msg [Hm _]].
      rewrite Hm in Hrun. discriminate. }
  destruct (Logit_fit E d (X_of d covariates) (w_of d i_weights)) as [e|fit] eqn:Hfit.
  { erewrite std_ipw_did_rc_solver_raises in Hrun by eassumption.
    discriminate. }
  destruct (existsb isnan (params fit)) eqn:Hnan.
  { erewrite std_ipw_did_rc_nan_coefficient in Hrun by eassumption.
    discriminate. }
  erewrite std_ipw_did_rc_run in Hrun by eassumption.
  injection Hrun as Hws Hr. exists fit. repeat split; congruence.
Qed.
End RunFacts.

(** ** What a call returns, and when it fails *)

(** C10. For every call that returns, [boots] is [None] exactly when [boot] is
    false and [att_inf_func] is [None] exactly when [influence_func] is false.
    The influence function [inf] is computed whatever the flag says: the
    analytic standard error is derived from it, and the flag only decides
    whether the result carries it. *)
Theorem optional_fields_follow_flags :
  forall (T : Type) (NT : Num T) (E : Collab T) (y : list T) (post d : list Z)
         (covariates : option (list (list T))) (i_weights : option (list T))
         (boot : bool) (boot_type : string) (nboot : Z) (influence_func : bool)
         (trim_level : T) (ws : list string) (r : StdIPWDIDRCResult T),
    std_ipw_did_rc E y post d covariates i_weights boot boot_type nboot
                   influence_func trim_level = (ws, inr r) ->
    (boots r = None <-> boot = false) /\
    (att_inf_func r = None <-> influence_func = false) /\
    exists inf : list T,
      att_inf_func r = (if influence_func then Some inf else None) /\
      (boot = false ->
       se r = (np_std_ddof1 inf / nsqrt (ofnat (List.length d)))%num) /\
      forall flag : bool,
        std_ipw_did_rc E y post d covariates i_weights boot boot_type nboot
                       flag trim_level =
        (ws, inr (with_inf_func r (if flag then Some inf else None))).
Proof.
  intros T NT E y post d covariates i_weights boot boot_type nboot influence_func
         trim_level ws r Hrun.
  destruct (std_ipw_did_rc_returns _ _ _ _ _ _ _ _ _ _ _ Hrun)
    as [fit [Hw [Hg [Hfit [Hnan [Hws Hr]]]]]].
  split; [|split].
  - subst r. unfold result_of, inference. cbn [boots].
    destruct boot; cbn [negb snd]; [|tauto].
    destruct (String.eqb boot_type "multiplier"); cbn [snd];
      split; intros; discriminate.
  - subst r. cbn [result_of att_inf_func].
    destruct influence_func; cbn [negb]; split; intros; try discriminate; reflexivity.
  - exists (inf_of E trim_level y d post (X_of d covariates) (w_of d i_weights)
                   (ps_of fit (X_of d covariates))).
    split; [|split].
    + subst r. cbn [result_of att_inf_func]. now destruct influence_func.
    + intros ->. subst r. reflexivity.
    + intros flag.
      erewrite std_ipw_did_rc_run by eassumption.
      subst ws r. unfold with_inf_func, result_of. cbn.
      now destruct flag.
Qed.

(** C6, as amended. The entry point rejects a negative observation weight, and
    a sample with no treated unit, no control unit, no post-period unit or no
    pre-period unit, with a [ValueError] that is the same for every
    collaborator record: the propensity model has not been called. *)
Theorem validation_rejects_before_fitting :
  forall (T : Type) (NT : Num T) (post d : list Z) (i_weights : option (list T)),
    (exists w, i_weights = Some w /\ Exists (fun x => (x <? ofZ 0)%num = true) w)
    \/ ~ In 1%Z d \/ ~ In 0%Z d \/ ~ In 1%Z post \/ ~ In 0%Z post ->
    exists msg,
      In msg [msg_negative_weights; msg_no_treated; msg_no_control;
              msg_no_post; msg_no_pre] /\
      forall (E : Collab T) (y : list T) (covariates : option (list (list T)))
             (boot : bool) (boot_type : string) (nboot : Z)
             (influence_func : bool) (trim_level : T),
        std_ipw_did_rc E y post d covariates i_weights boot boot_type nboot
                       influence_func trim_level = ([], inl (ValueError msg)).
Proof.
  intros T NT post d i_weights Hbad.
  destruct (weights_ok i_weights) eqn:Hw.
  - assert (Hg : groups_ok d post = false).
    { destruct (groups_ok d post) eqn:Hg; [|reflexivity].
      apply groups_ok_In in Hg. destruct Hbad as [[w [-> Hex]]|Hbad]; [|tauto].
      simpl in Hw. apply negb_true_iff in Hw.
      apply Exists_exists in Hex. destruct Hex as [x [Hin Hx]].
      assert (existsb (fun x => (x <? ofZ 0)%num) w = true)
        by (apply existsb_exists; eauto).
      congruence. }
    destruct (check_groups_fail _ _ Hg) as [msg [Hc Hin]].
    exists msg. split; [simpl in *; tauto|].
    intros E y covariates boot boot_type nboot influence_func trim_level.
    unfold std_ipw_did_rc.
    rewrite (check_weights_ok _ _ Hw). cbn [bind ret]. now rewrite Hc.
  - exists msg_negative_weights. split; [simpl; tauto|].
    intros. now apply std_ipw_did_rc_negative_weights.
Qed.

(** C7, as amended. If a fitted coefficient is NaN, the call fails with the
    [ValueError] of line 129, after the non-convergence warning if the solver
    reported one; nothing of the outcome, the trim level or the inference
    options enters the result. *)
Theorem nan_coefficient_is_fatal :
  forall (T : Type) (NT : Num T) (E : Collab T) (fit : LogitResults T)
         (y : list T) (post d : list Z) (covariates : option (list (list T)))
         (i_weights : option (list T)) (boot : bool) (boot_type : string)
         (nboot : Z) (influence_func : bool) (trim_level : T),
    weights_ok i_weights = true ->
    groups_ok d post = true ->
    Logit_fit E d (X_of d covariates) (w_of d i_weights) = inr fit ->
    existsb isnan (params fit) = true ->
    std_ipw_did_rc E y post d covariates i_weights boot boot_type nboot
                   influence_func trim_level =
    ((if converged fit then [] else [msg_not_converged]),
     inl (ValueError msg_na_coefficients)).
Proof.
  intros. now apply std_ipw_did_rc_nan_coefficient.
Qed.


(** ** Runs in binary64

    The four-unit sample [y4], [post4], [d4] with the intercept-only model
    that predicts 0.5 for every unit. *)

Section Binary64.
Local Open Scope float_scope.

(** The literals of the source are the doubles Python reads them as. *)
Example literals_binary64 :
  lit_1e_6 = 0x1.0c6f7a0b5ed8dp-20 /\ lit_1_96 = 0x1.f5c28f5c28f5cp+0
  /\ default_trim_level = 0x1.fd70a3d70a3d7p-1.
Proof. repeat split; reflexivity. Qed.

(** With the default trim level the estimate is the difference in
    differences (5 - 1) - (3 - 2). *)
Example run_default_trim :
  exists r,
    std_ipw_did_rc (T := float) model4 y4 post4 d4 None None
                   false "weighted" 999 true default_trim_level = ([], inr r)
    /\ att r = 3 /\ se r = 0 /\ att_inf_func r = Some [0; 0; 0; 0].
Proof. eexists. repeat split; vm_compute; reflexivity. Qed.

Lemma optional_fields_follow_flags_witness :
  exists r,
    std_ipw_did_rc (T := float) model4 y4 post4 d4 None None
                   false "weighted" 999 false default_trim_level = ([], inr r)
    /\ (boots r = None <-> false = false)
    /\ (att_inf_func r = None <-> false = false).
Proof.
  eexists. split.
  - vm_compute. reflexivity.
  - pose proof (@optional_fields_follow_flags float Num_float
                  model4 y4 post4 d4 None None
                  false "weighted"%string 999%Z false default_trim_level
                  [] _ eq_refl) as H.
    split; apply H.
Defined.

(** A negative weight is rejected whatever the collaborators are. *)
Lemma validation_rejects_before_fitting_witness :
  exists msg,
    In msg [msg_negative_weights; msg_no_treated; msg_no_control;
            msg_no_post; msg_no_pre] /\
    forall (E : Collab float) (y : list float)
           (covariates : option (list (list float)))
           (boot : bool) (boot_type : string) (nboot : Z)
           (influence_func : bool) (trim_level : float),
      std_ipw_did_rc E y post4 d4 covariates (Some [1; -1; 1; 1]) boot boot_type
                     nboot influence_func trim_level = ([], inl (ValueError msg)).
Proof.
  apply validation_rejects_before_fitting.
  left. exists [1; -1; 1; 1]. split; [reflexivity|].
  apply Exists_cons_tl, Exists_cons_hd. reflexivity.
Defined.

(** C6, counterexample. With one treated unit observed after treatment and
    one control unit observed before, the treated-pre and control-post
    combinations contain no unit, yet the input is accepted: the call returns,
    and its estimate is NaN. *)
Lemma empty_cell_passes_validation :
  cell_values 1 0 [5; 1] [1; 0]%Z [1; 0]%Z = [] /\
  cell_values 0 1 [5; 1] [1; 0]%Z [1; 0]%Z = [] /\
  exists r,
    std_ipw_did_rc (T := float) model4 [5; 1] [1; 0]%Z [1; 0]%Z
                   None None false "weighted" 999 false default_trim_level
    = ([], inr r)
    /\ isnan (att r) = true.
Proof.
  split; [reflexivity|]. split; [reflexivity|].
  eexists. split; vm_compute; reflexivity.
Qed.

Lemma nan_coefficient_is_fatal_witness :
  std_ipw_did_rc (T := float) (intercept_model true [nan] one_half) y4 post4 d4 None None
                 false "weighted" 999 false default_trim_level =
  ([], inl (ValueError msg_na_coefficients)).
Proof.
  apply (@nan_coefficient_is_fatal float Num_float
           (intercept_model true [nan] one_half) (intercept_fit true [nan] one_half));
    reflexivity.
Defined.

(** C7, counterexample. An infinite coefficient is not finite, and the check
    of line 128 lets it through: with the fitted probability 1 that goes with
    an intercept of plus infinity, the call returns a result (every control
    unit is trimmed, so its estimate is NaN). *)
Lemma infinite_coefficient_is_accepted :
  PrimFloat.is_finite infinity = false /\
  exists r,
    std_ipw_did_rc (T := float) (intercept_model true [infinity] 1) y4 post4 d4
                   None None false "weighted" 999 false default_trim_level
    = ([], inr r)
    /\ isnan (att r) = true.
Proof.
  split; [reflexivity|]. eexists. split; vm_compute; reflexivity.
Qed.



(** C9, counterexample. Intercept-only covariates, uniform weights, all four
    cells non-empty, and a trim level of 0.5: the common fitted probability
    0.5 is not below it, every control unit is trimmed, and the estimate is
    NaN, not the difference in differences 3 of the cell means. *)
Lemma trimmed_controls_break_simple_did :
  cell_values 1 1 y4 d4 post4 = [5] /\ cell_values 1 0 y4 d4 post4 = [1] /\
  cell_values 0 1 y4 d4 post4 = [3] /\ cell_values 0 0 y4 d4 post4 = [2] /\
  simple_did y4 d4 post4 = 3 /\
  exists r,
    std_ipw_did_rc (T := float) model4 y4 post4 d4 None None
                   false "weighted" 999 false 0.5 = ([], inr r)
    /\ isnan (att r) = true
    /\ att r <> simple_did y4 d4 post4.
Proof.
  repeat (split; [vm_compute; reflexivity|]).
  eexists. repeat split; try (vm_compute; reflexivity).
  vm_compute. intros H. discriminate (f_equal PrimFloat.is_nan H).
Qed.
End Binary64.

(** ** Arrays as maps over the units

    Parallel arrays of one length are maps over the unit indices; numpy's
    element-wise operations then fuse into one map. *)

Section ListFacts.
Context {A B C U : Type}.

Lemma zip_with_map (f : A -> B -> C) (g : U -> A) (h : U -> B) (us : list U) :
  zip_with f (map g us) (map h us) = map (fun u => f (g u) (h u)) us.
Proof. induction us as [|u us IH]; simpl; [reflexivity | now rewrite IH]. Qed.

Lemma zip_with_length (f : A -> B -> C) (xs : list A) (ys : list B) :
  List.length xs = List.length ys ->
  List.length (zip_with f xs ys) = List.length xs.
Proof.
  revert ys. induction xs as [|x xs IH]; intros [|y ys] Hlen; simpl in *;
    try reflexivity; try discriminate.
  f_equal. apply IH. now injection Hlen.
Qed.

Lemma list_as_map_seq (dflt : A) (l : list A) :
  l = map (fun i => nth i l dflt) (seq 0 (List.length l)).
Proof.
  induction l as [|x l IH]; simpl; [reflexivity|].
  f_equal. rewrite <- seq_shift, map_map. exact IH.
Qed.

Lemma list_as_map_seq_n (dflt : A) (l : list A) (n : nat) :
  List.length l = n -> l = map (fun i => nth i l dflt) (seq 0 n).
Proof. intros <-. apply list_as_map_seq. Qed.

Lemma repeat_as_map (c : A) (us : list U) :
  repeat c (List.length us) = map (fun _ => c) us.
Proof. induction us as [|u us IH]; simpl; [reflexivity | now rewrite IH]. Qed.
End ListFacts.

(** ** Exact arithmetic *)

Section RealFacts.
Local Open Scope R_scope.

Lemma fold_left_Rplus (xs : list R) (a : R) :
  fold_left Rplus xs a = a + fold_left Rplus xs 0.
Proof.
  revert a. induction xs as [|x xs IH]; intros a; simpl; [lra|].
  rewrite (IH (a + x)), (IH (0 + x)). lra.
Qed.

Lemma np_sum_nil : np_sum (@nil R) = 0.
Proof. reflexivity. Qed.

Lemma np_sum_cons (x : R) (xs : list R) : np_sum (x :: xs) = x + np_sum xs.
Proof. unfold np_sum. simpl. rewrite fold_left_Rplus. lra. Qed.

Lemma np_sum_map_scale {U} (f : U -> R) (c : R) (us : list U) :
  np_sum (map (fun u => f u * c) us) = np_sum (map f us) * c.
Proof.
  induction us as [|u us IH]; simpl.
  - rewrite np_sum_nil. lra.
  - rewrite !np_sum_cons, IH. lra.
Qed.

Lemma np_sum_map_ext {U} (f g : U -> R) (us : list U) :
  (forall u, In u us -> f u = g u) ->
  np_sum (map f us) = np_sum (map g us).
Proof.
  intros Hfg. f_equal. apply map_ext_in. exact Hfg.
Qed.

Lemma np_sum_div (xs : list R) (c : R) :
  np_sum (map (fun x => x / c) xs) = np_sum xs / c.
Proof.
  rewrite <- (map_id xs) at 2. unfold Rdiv.
  exact (np_sum_map_scale (fun x => x) (/ c) xs).
Qed.

Lemma np_sum_nonneg (xs : list R) :
  Forall (fun x => 0 <= x) xs -> 0 <= np_sum xs.
Proof.
  induction 1 as [|x xs Hx _ IH]; [rewrite np_sum_nil; lra|].
  rewrite np_sum_cons. lra.
Qed.

Lemma ofnat_INR (n : nat) : ofnat n = INR n.
Proof. unfold ofnat. simpl. symmetry. apply INR_IZR_INZ. Qed.

Lemma np_mean_div (xs : list R) (c : R) :
  np_mean (map (fun x => x / c) xs) = np_mean xs / c.
Proof.
  unfold np_mean. rewrite length_map, np_sum_div. simpl. unfold Rdiv. ring.
Qed.

(** The estimate of a cell is its Hajek mean. *)
Lemma att_cell_hajek (w y : list R) : att_cell w y = hajek_mean w y.
Proof. unfold att_cell, eta, hajek_mean. simpl. apply np_mean_div. Qed.

Lemma ipw_att_double_difference (W : WeightSet R) (y : list R) :
  ipw_att_of W y = double_difference W y.
Proof.
  unfold ipw_att_of, double_difference. now rewrite !att_cell_hajek.
Qed.

Lemma no_nan_R (xs : list R) : existsb isnan xs = false.
Proof. induction xs as [|x xs IH]; simpl; [reflexivity | exact IH]. Qed.

Lemma Rltb_true (x y : R) : Rltb x y = true <-> x < y.
Proof. unfold Rltb. destruct (Rlt_dec x y); split; intros; try easy. Qed.

Lemma Rltb_false (x y : R) : Rltb x y = false <-> y <= x.
Proof.
  unfold Rltb. destruct (Rlt_dec x y); split; intros; try easy; lra.
Qed.
End RealFacts.

(** ** The point estimate, in exact arithmetic *)

Section PointEstimate.
Local Open Scope R_scope.

(** C2. For every well-shaped input that passes the checks and every fit, the
    call returns, and its estimate is the double difference of the four Hajek
    means [mean(w * y) / mean(w)] taken over the four weight vectors. *)
Theorem att_is_double_difference_of_hajek_means :
  forall (E : Collab R) (fit : LogitResults R) (y : list R) (post d : list Z)
         (covariates : option (list (list R))) (i_weights : option (list R))
         (boot : bool) (boot_type : string) (nboot : Z) (influence_func : bool)
         (trim_level : R),
    weights_ok i_weights = true ->
    groups_ok d post = true ->
    Logit_fit E d (X_of d covariates) (w_of d i_weights) = inr fit ->
    well_shaped fit y post d covariates i_weights ->
    exists (ws : list string) (r : StdIPWDIDRCResult R),
      std_ipw_did_rc E y post d covariates i_weights boot boot_type nboot
                     influence_func trim_level = (ws, inr r) /\
      let W := W_of trim_level d post (w_of d i_weights)
                    (ps_of fit (X_of d covariates)) in
      att r = (hajek_mean (w_treat_post W) y - hajek_mean (w_treat_pre W) y)
              - (hajek_mean (w_cont_post W) y - hajek_mean (w_cont_pre W) y).
Proof.
  intros E fit y post d covariates i_weights boot boot_type nboot influence_func
         trim_level Hw Hg Hfit _.
  eexists. eexists. split.
  - apply std_ipw_did_rc_run with (fit := fit); try assumption. apply no_nan_R.
  - cbn [result_of att]. apply ipw_att_double_difference.
Qed.
End PointEstimate.

(** ** Scale invariance in the observation weights *)

Section ScaleInvariance.
Local Open Scope R_scope.


Lemma np_sum_scale_left (c : R) (w : list R) :
  np_sum (map (fun x => c * x) w) = c * np_sum w.
Proof.
  rewrite (np_sum_map_ext (fun x => c * x) (fun x => x * c)) by (intros; ring).
  rewrite (np_sum_map_scale (fun x => x) c w), map_id. ring.
Qed.

Lemma normalize_weights_scale (c : R) (w : list R) :
  c <> 0 ->
  normalize_weights (map (fun x => c * x) w) = normalize_weights w.
Proof.
  intros Hc. unfold normalize_weights, np_mean.
  rewrite map_map, length_map, np_sum_scale_left.
  apply map_ext. intros x. cbn [ndiv Num_R].
  unfold Rdiv. rewrite !Rinv_mult, Rinv_inv.
  generalize (/ np_sum w). intros s. field. exact Hc.
Qed.

Lemma weights_ok_scale (c : R) (w : list R) :
  0 < c ->
  weights_ok (Some (map (fun x => c * x) w)) = weights_ok (Some w).
Proof.
  intros Hc. simpl. f_equal.
  induction w as [|x w IH]; simpl; [reflexivity|]. rewrite IH. f_equal.
  destruct (Rltb x 0) eqn:Hx.
  - apply Rltb_true in Hx. apply Rltb_true. nra.
  - apply Rltb_false in Hx. apply Rltb_false. nra.
Qed.

Lemma repeat_scale (c : R) (n : nat) :
  repeat c n = map (fun x => c * x) (repeat 1 n).
Proof.
  induction n as [|n IH]; simpl; [reflexivity|]. rewrite <- IH. f_equal. ring.
Qed.

Lemma weights_ok_repeat_one (n : nat) : weights_ok (Some (repeat 1 n)) = true.
Proof.
  simpl. apply negb_true_iff. induction n as [|n IH]; simpl; [reflexivity|].
  rewrite IH. rewrite orb_false_r. apply Rltb_false. lra.
Qed.


Lemma w_of_constant (d : list Z) (c : R) :
  c <> 0 -> w_of d (Some (repeat c (List.length d))) = w_of d None.
Proof.
  intros Hc. unfold w_of. cbn [raw_weights].
  rewrite repeat_scale. now apply normalize_weights_scale.
Qed.


End ScaleInvariance.

(** ** The weight vectors *)

Section Weights.
Local Open Scope R_scope.

(** The weights of the code, unit by unit. *)
Lemma build_weights_map {T : Type} {NT : Num T} {U : Type} (trim_level : T)
      (fw fps : U -> T) (fd fpost : U -> Z) (us : list U) :
  build_weights trim_level (map fw us) (map fps us) (map fd us) (map fpost us) =
  let trim u := ofbool (if (fd u =? 0)%Z then (fps u <? trim_level)%num else true) in
  {| w_treat_pre :=
       map (fun u => trim u * fw u * ofZ (fd u) * ofZ (1 - fpost u))%num us;
     w_treat_post :=
       map (fun u => trim u * fw u * ofZ (fd u) * ofZ (fpost u))%num us;
     w_cont_pre :=
       map (fun u => trim u * fw u * fps u * ofZ (1 - fd u) * ofZ (1 - fpost u)
                     / (ofZ 1 - fps u))%num us;
     w_cont_post :=
       map (fun u => trim u * fw u * fps u * ofZ (1 - fd u) * ofZ (fpost u)
                     / (ofZ 1 - fps u))%num us |}.
Proof.
  unfold build_weights, trim_mask. cbn zeta.
  rewrite !map_map. repeat rewrite !zip_with_map, ?map_map. reflexivity.
Qed.

Lemma np_clip_range (x : R) :
  lit_1e_6 <= np_clip lit_1e_6 (1 - lit_1e_6) x <= 1 - lit_1e_6.
Proof.
  assert (Hlit : lit_1e_6 = 1e-6) by (unfold lit_1e_6; simpl; lra).
  unfold np_clip. cbn [isnan nltb nsub ofZ Num_R]. rewrite Hlit. clear Hlit.
  destruct (Rltb x 1e-6) eqn:H1; destruct (Rltb (1 - 1e-6) _) eqn:H2;
    try apply Rltb_true in H1; try apply Rltb_false in H1;
    try apply Rltb_true in H2; try apply Rltb_false in H2; lra.
Qed.

Lemma np_clip_unit_interval (x : R) :
  0 < np_clip lit_1e_6 (1 - lit_1e_6) x < 1.
Proof.
  pose proof (np_clip_range x) as Hr.
  assert (Hlit : 0 < lit_1e_6 < 1 / 2) by (unfold lit_1e_6; simpl; lra).
  revert Hr Hlit. generalize (np_clip lit_1e_6 (1 - lit_1e_6) x).
  generalize (@lit_1e_6 R _). intros e p. lra.
Qed.

Lemma weights_ok_nonneg (n : nat) (i_weights : option (list R)) :
  weights_ok i_weights = true ->
  Forall (fun x => 0 <= x) (raw_weights n i_weights).
Proof.
  destruct i_weights as [w|]; cbn [weights_ok raw_weights].
  - intros Hw. apply negb_true_iff in Hw. apply Forall_forall. intros x Hin.
    apply Rltb_false. destruct (Rltb x 0) eqn:Hx; [|reflexivity].
    assert (existsb (fun x => (x <? ofZ 0)%num) w = true)
      by (apply existsb_exists; exists x; split; assumption).
    congruence.
  - intros _. apply Forall_forall. intros x Hin.
    apply repeat_spec in Hin. subst x. simpl. lra.
Qed.

Lemma np_mean_pos (w : list R) : 0 < np_sum w -> 0 < np_mean w.
Proof.
  intros Hs. unfold np_mean. cbn [ndiv Num_R]. rewrite ofnat_INR.
  apply Rdiv_lt_0_compat; [assumption|]. apply lt_0_INR.
  destruct w; [rewrite np_sum_nil in Hs; lra | simpl; lia].
Qed.

Lemma normalize_weights_nonneg (w : list R) :
  Forall (fun x => 0 <= x) w -> 0 < np_sum w ->
  Forall (fun x => 0 <= x) (normalize_weights w).
Proof.
  intros Hw Hs. unfold normalize_weights. apply Forall_map.
  pose proof (Rinv_0_lt_compat _ (np_mean_pos w Hs)) as Hm.
  eapply Forall_impl; [|exact Hw]. cbn beta. intros x Hx.
  cbn [ndiv Num_R]. unfold Rdiv. apply Rmult_le_pos; lra.
Qed.

Lemma nth_map_seq {A : Type} (f : nat -> A) (n i : nat) (dflt : A) :
  (i < n)%nat -> nth i (map f (seq 0 n)) dflt = f i.
Proof.
  intros Hi. rewrite (nth_indep _ dflt (f 0%nat)) by (rewrite length_map, length_seq; lia).
  rewrite map_nth. now rewrite seq_nth.
Qed.

Lemma nth_map_seq_overflow {A : Type} (f : nat -> A) (n i : nat) (dflt : A) :
  (n <= i)%nat -> nth i (map f (seq 0 n)) dflt = dflt.
Proof. intros Hi. apply nth_overflow. rewrite length_map, length_seq. lia. Qed.

Lemma binary_nth (l : list Z) (i : nat) :
  binary l -> (nth i l 0 = 0 \/ nth i l 0 = 1)%Z.
Proof.
  intros Hb. destruct (Nat.lt_ge_cases i (List.length l)) as [Hi|Hi].
  - unfold binary in Hb. rewrite Forall_forall in Hb. apply Hb. now apply nth_In.
  - left. now apply nth_overflow.
Qed.

Lemma spec_trim_cases (trim_level p : R) (g : Z) :
  spec_trim trim_level g p = 0 \/ spec_trim trim_level g p = 1.
Proof.
  unfold spec_trim. destruct (g =? 1)%Z; [now right|].
  cbn [nltb Num_R]. destruct (Rltb p trim_level); [now right | now left].
Qed.

(** On 0/1 indicators the mask of lines 141-142 is the trimming indicator. *)
Lemma trim_mask_unit (trim_level p : R) (g : Z) :
  (g = 0 \/ g = 1)%Z ->
  ofbool (if (g =? 0)%Z then (p <? trim_level)%num else true)
  = spec_trim trim_level g p.
Proof.
  unfold spec_trim. intros [-> | ->]; cbn [Z.eqb Pos.eqb]; [|reflexivity].
  destruct (p <? trim_level)%num; reflexivity.
Qed.

Lemma w_treat_pre_unit (trim_level w p : R) (g t : Z) :
  (g = 0 \/ g = 1)%Z ->
  (ofbool (if (g =? 0)%Z then p <? trim_level else true) * w * ofZ g * ofZ (1 - t))%num
  = spec_w_treat_pre trim_level w p g t.
Proof.
  intros Hg. rewrite (trim_mask_unit _ _ Hg). unfold spec_w_treat_pre.
  cbn [nmul nsub ofZ Num_R]. now rewrite minus_IZR.
Qed.

Lemma w_treat_post_unit (trim_level w p : R) (g t : Z) :
  (g = 0 \/ g = 1)%Z ->
  (ofbool (if (g =? 0)%Z then p <? trim_level else true) * w * ofZ g * ofZ t)%num
  = spec_w_treat_post trim_level w p g t.
Proof. intros Hg. now rewrite (trim_mask_unit _ _ Hg). Qed.

Lemma w_cont_pre_unit (trim_level w p : R) (g t : Z) :
  (g = 0 \/ g = 1)%Z -> p < 1 ->
  (ofbool (if (g =? 0)%Z then p <? trim_level else true) * w * p
   * ofZ (1 - g) * ofZ (1 - t) / (ofZ 1 - p))%num
  = spec_w_cont_pre trim_level w p g t.
Proof.
  intros Hg Hp. rewrite (trim_mask_unit _ _ Hg). unfold spec_w_cont_pre, odds.
  cbn [nmul nsub ndiv ofZ Num_R]. rewrite !minus_IZR. field. lra.
Qed.

Lemma w_cont_post_unit (trim_level w p : R) (g t : Z) :
  (g = 0 \/ g = 1)%Z -> p < 1 ->
  (ofbool (if (g =? 0)%Z then p <? trim_level else true) * w * p
   * ofZ (1 - g) * ofZ t / (ofZ 1 - p))%num
  = spec_w_cont_post trim_level w p g t.
Proof.
  intros Hg Hp. rewrite (trim_mask_unit _ _ Hg). unfold spec_w_cont_post, odds.
  cbn [nmul nsub ndiv ofZ Num_R]. rewrite !minus_IZR. field. lra.
Qed.

Lemma odds_pos (p : R) : 0 < p < 1 -> 0 < odds p.
Proof.
  intros Hp. unfold odds. cbn [nsub ndiv ofZ Num_R].
  apply Rdiv_lt_0_compat; lra.
Qed.

(** The weights of the code are those of the specification. *)
Lemma build_weights_spec (trim_level : R) (w ps : list R) (d post : list Z) :
  binary d ->
  List.length w = List.length d ->
  List.length ps = List.length d ->
  List.length post = List.length d ->
  (forall i, nth i ps 0 < 1) ->
  build_weights trim_level w ps d post = spec_weights trim_level w ps d post.
Proof.
  intros Hd Hlw Hlps Hlpost Hps.
  set (n := List.length d).
  assert (Heq : build_weights trim_level w ps d post =
                build_weights trim_level
                  (map (fun i => nth i w 0) (seq 0 n))
                  (map (fun i => nth i ps 0) (seq 0 n))
                  (map (fun i => nth i d 0%Z) (seq 0 n))
                  (map (fun i => nth i post 0%Z) (seq 0 n))).
  { f_equal; now apply list_as_map_seq_n. }
  rewrite Heq, build_weights_map. unfold spec_weights, per_unit. fold n.
  cbn zeta. f_equal; apply map_ext; intros i.
  - apply w_treat_pre_unit. now apply binary_nth.
  - apply w_treat_post_unit. now apply binary_nth.
  - apply w_cont_pre_unit; [now apply binary_nth | apply Hps].
  - apply w_cont_post_unit; [now apply binary_nth | apply Hps].
Qed.

Lemma ps_of_nth (fit : LogitResults R) (X : list (list R)) (i : nat) :
  (i < List.length (predict fit X))%nat -> 0 < nth i (ps_of fit X) 0 < 1.
Proof.
  intros Hi. unfold ps_of.
  rewrite (nth_indep _ 0 (np_clip lit_1e_6 (ofZ 1 - lit_1e_6) 0))
    by now rewrite length_map.
  rewrite map_nth. apply np_clip_unit_interval.
Qed.

Lemma ps_of_below_one (fit : LogitResults R) (X : list (list R)) (i : nat) :
  nth i (ps_of fit X) 0 < 1.
Proof.
  destruct (Nat.lt_ge_cases i (List.length (predict fit X))) as [Hi|Hi].
  - now apply ps_of_nth.
  - rewrite nth_overflow; [lra|]. unfold ps_of. now rewrite length_map.
Qed.

Lemma per_unit_nth (f : R -> R -> Z -> Z -> R) (w ps : list R) (d post : list Z)
      (i : nat) :
  (i < List.length d)%nat ->
  nth i (per_unit f w ps d post) 0
  = f (nth i w 0) (nth i ps 0) (nth i d 0%Z) (nth i post 0%Z).
Proof. intros Hi. unfold per_unit. now rewrite nth_map_seq. Qed.

Lemma per_unit_overflow (f : R -> R -> Z -> Z -> R) (w ps : list R)
      (d post : list Z) (i : nat) :
  (List.length d <= i)%nat -> nth i (per_unit f w ps d post) 0 = 0.
Proof. intros Hi. unfold per_unit. now rewrite nth_map_seq_overflow. Qed.

Lemma per_unit_Forall (P : R -> Prop) (f : R -> R -> Z -> Z -> R) (w ps : list R)
      (d post : list Z) :
  (forall i, (i < List.length d)%nat ->
             P (f (nth i w 0) (nth i ps 0) (nth i d 0%Z) (nth i post 0%Z))) ->
  Forall P (per_unit f w ps d post).
Proof.
  intros Hf. unfold per_unit. apply Forall_map, Forall_forall.
  intros i Hi. apply in_seq in Hi. apply Hf. lia.
Qed.

(** A weight is zero at a unit outside the cell: out of range by default, in
    range by the four cases of the two indicators. *)
Ltac outside_cell Hd Hpost Hcell :=
  match goal with
  | |- nth ?i (per_unit _ _ _ ?d ?post) _ = _ =>
      destruct (Nat.lt_ge_cases i (List.length d)) as [Hi|Hi];
      [|now apply per_unit_overflow];
      rewrite per_unit_nth by assumption;
      unfold spec_w_treat_pre, spec_w_treat_post, spec_w_cont_pre,
        spec_w_cont_post;
      cbn [nmul nsub ofZ Num_R];
      destruct (binary_nth i Hd) as [Hg | Hg];
      destruct (binary_nth i Hpost) as [Ht | Ht];
      rewrite ?Hg, ?Ht in *; try tauto; ring
  end.

(** C4. For every valid input (0/1 indicators, non-negative weights of
    positive sum) the four weight vectors are, unit by unit,
    - treated-pre  = trim * weight * group * (1 - post),
    - treated-post = trim * weight * group * post,
    - control-pre  = trim * weight * odds * (1 - group) * (1 - post),
    - control-post = trim * weight * odds * (1 - group) * post,
    with the odds [ps / (1 - ps)] of the clipped propensities and the trimming
    indicator [spec_trim]. A control unit whose propensity is not below the
    trim level has weight zero in all four; every weight is non-negative; and
    each vector is zero outside its group-period cell. *)
Theorem weight_vectors_form :
  forall (fit : LogitResults R) (trim_level : R) (d post : list Z)
         (covariates : option (list (list R))) (i_weights : option (list R)),
    weights_ok i_weights = true ->
    0 < np_sum (raw_weights (List.length d) i_weights) ->
    binary d -> binary post ->
    List.length post = List.length d ->
    List.length (raw_weights (List.length d) i_weights) = List.length d ->
    List.length (predict fit (X_of d covariates)) = List.length d ->
    let w := w_of d i_weights in
    let ps := ps_of fit (X_of d covariates) in
    let W := W_of trim_level d post w ps in
    W = spec_weights trim_level w ps d post /\
    (forall i, (i < List.length d)%nat ->
               nth i d 0%Z = 0%Z -> trim_level <= nth i ps 0 ->
               nth i (w_treat_pre W) 0 = 0 /\ nth i (w_treat_post W) 0 = 0 /\
               nth i (w_cont_pre W) 0 = 0 /\ nth i (w_cont_post W) 0 = 0) /\
    (Forall (fun x => 0 <= x) (w_treat_pre W) /\
     Forall (fun x => 0 <= x) (w_treat_post W) /\
     Forall (fun x => 0 <= x) (w_cont_pre W) /\
     Forall (fun x => 0 <= x) (w_cont_post W)) /\
    (forall i, ~ (nth i d 0 = 1 /\ nth i post 0 = 0)%Z ->
               nth i (w_treat_pre W) 0 = 0) /\
    (forall i, ~ (nth i d 0 = 1 /\ nth i post 0 = 1)%Z ->
               nth i (w_treat_post W) 0 = 0) /\
    (forall i, ~ (nth i d 0 = 0 /\ nth i post 0 = 0)%Z ->
               nth i (w_cont_pre W) 0 = 0) /\
    (forall i, ~ (nth i d 0 = 0 /\ nth i post 0 = 1)%Z ->
               nth i (w_cont_post W) 0 = 0).
Proof.
  intros fit trim_level d post covariates i_weights Hok Hsum Hd Hpost Hlpost Hlw
         Hlps w ps W.
  assert (Hlw' : List.length w = List.length d)
    by (unfold w, w_of, normalize_weights; now rewrite length_map).
  assert (Hlps' : List.length ps = List.length d)
    by (unfold ps, ps_of; now rewrite length_map).
  assert (HW : W = spec_weights trim_level w ps d post).
  { apply build_weights_spec; try assumption. intros i. apply ps_of_below_one. }
  assert (Hw : forall i, 0 <= nth i w 0).
  { intros i. destruct (Nat.lt_ge_cases i (List.length w)) as [Hi|Hi].
    - pose proof (normalize_weights_nonneg
                    (weights_ok_nonneg (List.length d) _ Hok) Hsum) as Hn.
      rewrite Forall_forall in Hn. apply Hn. now apply nth_In.
    - rewrite nth_overflow by assumption. lra. }
  assert (Hps : forall i, (i < List.length d)%nat -> 0 < nth i ps 0 < 1).
  { intros i Hi. apply ps_of_nth. lia. }
  assert (Hind : forall l i, binary l ->
                   (IZR (nth i l 0%Z) = 0 \/ IZR (nth i l 0%Z) = 1)).
  { intros l i Hl. destruct (binary_nth i Hl) as [-> | ->]; [now left | now right]. }
  split; [exact HW|]. rewrite HW. cbn [spec_weights w_treat_pre w_treat_post
                                        w_cont_pre w_cont_post].
  split; [|split; [|split; [|split; [|split]]]].
  - intros i Hi Hdi Hp. rewrite !per_unit_nth by assumption.
    unfold spec_w_treat_pre, spec_w_treat_post, spec_w_cont_pre, spec_w_cont_post.
    assert (Ht : spec_trim trim_level (nth i d 0%Z) (nth i ps 0) = 0).
    { unfold spec_trim. rewrite Hdi. cbn [Z.eqb nltb Num_R].
      apply Rltb_false in Hp. now rewrite Hp. }
    rewrite Ht. cbn [nmul Num_R]. repeat split; ring.
  - repeat split; apply per_unit_Forall; intros i Hi;
      unfold spec_w_treat_pre, spec_w_treat_post, spec_w_cont_pre, spec_w_cont_post;
      cbn [nmul nsub ofZ Num_R];
      pose proof (Hw i) as Hwi; pose proof (odds_pos (Hps i Hi)) as Ho;
      destruct (spec_trim_cases trim_level (nth i ps 0) (nth i d 0%Z)) as [-> | ->];
      destruct (Hind d i Hd) as [-> | ->];
      destruct (Hind post i Hpost) as [-> | ->]; nra.
  - intros i Hcell. outside_cell Hd Hpost Hcell.
  - intros i Hcell. outside_cell Hd Hpost Hcell.
  - intros i Hcell. outside_cell Hd Hpost Hcell.
  - intros i Hcell. outside_cell Hd Hpost Hcell.
Qed.
End Weights.

(** ** The influence function *)

Section InfluenceFunction.
Local Open Scope R_scope.

Lemma m2_spec (w y : list R) (X : list (list R)) : m2 w y X = spec_m2 w y X.
Proof. unfold m2, spec_m2. now rewrite att_cell_hajek. Qed.

(** The leading term of a cell, unit by unit. *)
Lemma inf_cell_map {U : Type} (fw fy : U -> R) (us : list U) :
  inf_cell (map fw us) (map fy us) =
  map (fun u =>
         fw u * fy u / np_mean (map fw us)
         - fw u * hajek_mean (map fw us) (map fy us) / np_mean (map fw us)) us.
Proof.
  unfold inf_cell, eta. rewrite att_cell_hajek.
  generalize (hajek_mean (map fw us) (map fy us)).
  generalize (np_mean (map fw us)). intros m h.
  rewrite zip_with_map, !map_map, zip_with_map. reflexivity.
Qed.

(** The first-stage correction, unit by unit. *)
Lemma correction_map {U : Type} (fw fps : U -> R) (fd : U -> Z)
      (fX : U -> list R) (us : list U) (Hinv : list (list R)) (delta : list R) :
  matvec (matmul (scale_rows (map fw us [*] (map ofZ (map fd us) [-] map fps us))
                             (map fX us)) Hinv) delta =
  map (fun u =>
         dot (vecmat (map (fun x => fw u * (IZR (fd u) - fps u) * x) (fX u)) Hinv)
             delta) us.
Proof.
  unfold matvec, matmul, scale_rows, vecmat.
  rewrite !map_map. repeat rewrite !zip_with_map, ?map_map. reflexivity.
Qed.

Lemma nth_map_scale (c : R) (r : list R) (b : nat) :
  nth b (map (fun x => c * x) r) 0 = c * nth b r 0.
Proof.
  destruct (Nat.lt_ge_cases b (List.length r)) as [Hb|Hb].
  - rewrite (nth_indep _ 0 (c * 0)) by now rewrite length_map.
    apply (map_nth (fun x => c * x)).
  - rewrite !nth_overflow by (rewrite ?length_map; assumption). ring.
Qed.

(** The matrix [X.T @ (omega[:, None] * X)] of line 170, entry by entry. *)
Lemma outer_product_map {U : Type} (fo : U -> R) (fX : U -> list R) (us : list U) :
  matmul (transpose (map fX us)) (scale_rows (map fo us) (map fX us)) =
  map (fun a =>
         map (fun b =>
                np_sum (map (fun u => fo u * (nth a (fX u) 0 * nth b (fX u) 0)) us))
             (seq 0 (ncols (map fX us))))
      (seq 0 (ncols (map fX us))).
Proof.
  unfold matmul, scale_rows. rewrite zip_with_map.
  assert (Hk : ncols (map (fun u => map (fun x => (fo u * x)%num) (fX u)) us)
               = ncols (map fX us)).
  { destruct us as [|u us]; [reflexivity|]. cbn [map ncols]. apply length_map. }
  unfold transpose. rewrite Hk, !map_map.
  apply map_ext. intros a. rewrite map_map. apply map_ext. intros b.
  unfold dot, column. rewrite !map_map, zip_with_map.
  apply np_sum_map_ext. intros u _. cbn [nmul ofZ Num_R].
  rewrite nth_map_scale. ring.
Qed.

Lemma XtWX_outer_product (X : list (list R)) (w ps : list R) :
  List.length w = List.length X ->
  List.length ps = List.length X ->
  XtWX_of X w ps = weighted_outer_product (ps [*] (ofZ 1 [.-] ps) [*] w) X.
Proof.
  intros Hw Hps. unfold XtWX_of.
  set (omega := ps [*] (ofZ 1 [.-] ps) [*] w).
  assert (Ho : List.length omega = List.length X).
  { assert (Hp : List.length (ps [*] (ofZ 1 [.-] ps)) = List.length ps)
      by (apply zip_with_length; now rewrite length_map).
    unfold omega. rewrite zip_with_length; congruence. }
  set (n := List.length X) in *.
  transitivity
    (matmul (transpose (map (fun i => nth i X []) (seq 0 n)))
            (scale_rows (map (fun i => nth i omega 0) (seq 0 n))
                        (map (fun i => nth i X []) (seq 0 n)))).
  { rewrite <- (list_as_map_seq_n 0 omega Ho).
    now rewrite <- (list_as_map_seq_n [] X (eq_refl n)). }
  rewrite outer_product_map.
  rewrite <- (list_as_map_seq_n [] X (eq_refl n)).
  reflexivity.
Qed.

Lemma H_of_spec (E : Collab R) (n : nat) (X : list (list R)) (w ps : list R) :
  List.length w = List.length X ->
  List.length ps = List.length X ->
  H_of E n X w ps = spec_hessian_inverse E n X w ps.
Proof.
  intros Hw Hps. unfold H_of, spec_hessian_inverse. cbn zeta.
  now rewrite (XtWX_outer_product _ _ _ Hw Hps).
Qed.

Lemma inf_cell_spec (w y : list R) (n : nat) :
  List.length w = n -> List.length y = n ->
  inf_cell w y = map (spec_leading w y) (seq 0 n).
Proof.
  intros Hw Hy.
  transitivity (inf_cell (map (fun i => nth i w 0) (seq 0 n))
                         (map (fun i => nth i y 0) (seq 0 n))).
  { f_equal; now apply list_as_map_seq_n. }
  rewrite inf_cell_map.
  rewrite <- (list_as_map_seq_n 0 w Hw), <- (list_as_map_seq_n 0 y Hy).
  reflexivity.
Qed.

Lemma correction_spec (W : WeightSet R) (y : list R) (d : list Z)
      (X : list (list R)) (w ps : list R) (Hinv : list (list R)) :
  List.length w = List.length d ->
  List.length ps = List.length d ->
  List.length X = List.length d ->
  matvec (matmul (scale_rows (w [*] (map ofZ d [-] ps)) X) Hinv)
         (spec_m2 (w_cont_post W) y X [-] spec_m2 (w_cont_pre W) y X) =
  map (spec_correction W y d X w ps Hinv) (seq 0 (List.length d)).
Proof.
  intros Hw Hps HX. set (n := List.length d).
  set (delta := spec_m2 (w_cont_post W) y X [-] spec_m2 (w_cont_pre W) y X).
  transitivity
    (matvec (matmul (scale_rows
                       (map (fun i => nth i w 0) (seq 0 n)
                        [*] (map ofZ (map (fun i => nth i d 0%Z) (seq 0 n))
                             [-] map (fun i => nth i ps 0) (seq 0 n)))
                       (map (fun i => nth i X []) (seq 0 n))) Hinv) delta).
  { repeat f_equal; now apply list_as_map_seq_n. }
  rewrite correction_map. reflexivity.
Qed.

(** The influence function of the code is the one the specification states. *)
Lemma influence_function_spec (W : WeightSet R) (y : list R) (d : list Z)
      (X : list (list R)) (w ps : list R) (Hinv : list (list R)) :
  List.length (w_treat_pre W) = List.length d ->
  List.length (w_treat_post W) = List.length d ->
  List.length (w_cont_pre W) = List.length d ->
  List.length (w_cont_post W) = List.length d ->
  List.length y = List.length d ->
  List.length w = List.length d ->
  List.length ps = List.length d ->
  List.length X = List.length d ->
  influence_function W y d X w ps Hinv = spec_influence W y d X w ps Hinv.
Proof.
  intros H1 H2 H3 H4 Hy Hw Hps HX.
  unfold influence_function. cbn zeta. rewrite !m2_spec.
  rewrite correction_spec by assumption.
  rewrite (inf_cell_spec _ _ H1 Hy), (inf_cell_spec _ _ H2 Hy),
          (inf_cell_spec _ _ H3 Hy), (inf_cell_spec _ _ H4 Hy).
  rewrite !zip_with_map. reflexivity.
Qed.

Lemma build_weights_length (trim_level : R) (w ps : list R) (d post : list Z) :
  List.length w = List.length d ->
  List.length ps = List.length d ->
  List.length post = List.length d ->
  let W := build_weights trim_level w ps d post in
  List.length (w_treat_pre W) = List.length d /\
  List.length (w_treat_post W) = List.length d /\
  List.length (w_cont_pre W) = List.length d /\
  List.length (w_cont_post W) = List.length d.
Proof.
  intros Hw Hps Hpost. set (n := List.length d).
  assert (Heq : build_weights trim_level w ps d post =
                build_weights trim_level
                  (map (fun i => nth i w 0) (seq 0 n))
                  (map (fun i => nth i ps 0) (seq 0 n))
                  (map (fun i => nth i d 0%Z) (seq 0 n))
                  (map (fun i => nth i post 0%Z) (seq 0 n))).
  { f_equal; now apply list_as_map_seq_n. }
  cbn zeta. rewrite Heq, build_weights_map.
  cbn [w_treat_pre w_treat_post w_cont_pre w_cont_post].
  rewrite !length_map, length_seq. auto.
Qed.

(** On well-shaped input the influence function of a call is the one the
    specification states, and has one entry per unit. *)
Lemma inf_of_spec (E : Collab R) (fit : LogitResults R) (y : list R)
      (post d : list Z) (covariates : option (list (list R)))
      (i_weights : option (list R)) (trim_level : R) :
  well_shaped fit y post d covariates i_weights ->
  let X := X_of d covariates in
  let w := w_of d i_weights in
  let ps := ps_of fit X in
  inf_of E trim_level y d post X w ps =
  spec_influence (W_of trim_level d post w ps) y d X w ps
                 (spec_hessian_inverse E (List.length d) X w ps).
Proof.
  intros [Hy [Hpost [Hw [HX Hps]]]]. cbn zeta.
  assert (Hlw : List.length (w_of d i_weights) = List.length d)
    by (unfold w_of, normalize_weights; now rewrite length_map).
  assert (Hlps : List.length (ps_of fit (X_of d covariates)) = List.length d)
    by (unfold ps_of; now rewrite length_map).
  destruct (build_weights_length trim_level _ _ _ _ Hlw Hlps Hpost)
    as [H1 [H2 [H3 H4]]].
  rewrite <- H_of_spec by congruence.
  unfold inf_of. now apply influence_function_spec.
Qed.

Lemma inf_of_length (E : Collab R) (fit : LogitResults R) (y : list R)
      (post d : list Z) (covariates : option (list (list R)))
      (i_weights : option (list R)) (trim_level : R) :
  well_shaped fit y post d covariates i_weights ->
  List.length (inf_of E trim_level y d post (X_of d covariates)
                      (w_of d i_weights) (ps_of fit (X_of d covariates)))
  = List.length d.
Proof.
  intros Hshape. rewrite (inf_of_spec E trim_level Hshape).
  unfold spec_influence. now rewrite length_map, length_seq.
Qed.

(** C1. For every valid input the influence function the call returns is
    built as stated: at every unit, the leading terms
    [eta_cell - weight_cell * cell_mean / mean(weight_cell)] of the four
    cells, with the Hajek mean as [cell_mean], and the first-stage correction,
    the inner product of [score_i @ Hinv] with [delta = m2_post - m2_pre],
    combined as (treated_post - treated_pre) - ((control_post - control_pre)
    + correction). [Hinv] is [n] times the inverse, or pseudo-inverse, of the
    covariate outer product weighted by [ps * (1 - ps) * weight]. *)
Theorem influence_function_form :
  forall (E : Collab R) (fit : LogitResults R) (y : list R) (post d : list Z)
         (covariates : option (list (list R))) (i_weights : option (list R))
         (boot : bool) (boot_type : string) (nboot : Z) (trim_level : R),
    weights_ok i_weights = true ->
    groups_ok d post = true ->
    Logit_fit E d (X_of d covariates) (w_of d i_weights) = inr fit ->
    well_shaped fit y post d covariates i_weights ->
    exists (ws : list string) (r : StdIPWDIDRCResult R),
      std_ipw_did_rc E y post d covariates i_weights boot boot_type nboot
                     true trim_level = (ws, inr r) /\
      let X := X_of d covariates in
      let w := w_of d i_weights in
      let ps := ps_of fit X in
      let W := W_of trim_level d post w ps in
      att_inf_func r =
      Some (spec_influence W y d X w ps
                           (spec_hessian_inverse E (List.length d) X w ps)).
Proof.
  intros E fit y post d covariates i_weights boot boot_type nboot trim_level
         Hok Hg Hfit Hshape.
  eexists. eexists. split.
  - apply std_ipw_did_rc_run with (fit := fit); try assumption. apply no_nan_R.
  - cbn zeta. cbn [result_of att_inf_func negb]. f_equal.
    now apply inf_of_spec.
Qed.
End InfluenceFunction.

(** ** The analytic standard error *)

Section AnalyticInference.
Local Open Scope R_scope.
Local Abbreviation sqrt := R_sqrt.sqrt.

Lemma np_std_ddof1_sample_variance (xs : list R) :
  np_std_ddof1 xs = sqrt (sample_variance xs).
Proof.
  unfold np_std_ddof1, sample_variance. rewrite map_map. cbn [nsqrt Num_R].
  f_equal. cbn [ndiv nsub nmul Num_R ofZ]. rewrite ofnat_INR.
  destruct xs as [|x xs].
  - cbn [map List.length]. rewrite np_sum_nil. unfold Rdiv. now rewrite !Rmult_0_l.
  - f_equal. cbn [List.length].
    rewrite Z.max_l by lia. rewrite minus_IZR, <- INR_IZR_INZ. reflexivity.
Qed.

Lemma groups_ok_nonempty (d post : list Z) :
  groups_ok d post = true -> (0 < List.length d)%nat.
Proof.
  intros Hg. apply groups_ok_In in Hg. destruct Hg as [Hin _].
  destruct d; [contradiction | simpl; lia].
Qed.

(** C5. Without bootstrap the standard error is the sample standard deviation
    of the influence function ([n - 1] denominator) divided by the root of
    [n], which is the root of the sample variance over [n]; the bounds are the
    estimate plus and minus 1.96 standard errors. [inf] is the influence
    function the call computes, one entry per unit, returned when
    [influence_func] is set. *)
Theorem analytic_standard_error :
  forall (E : Collab R) (fit : LogitResults R) (y : list R) (post d : list Z)
         (covariates : option (list (list R))) (i_weights : option (list R))
         (boot_type : string) (nboot : Z) (influence_func : bool)
         (trim_level : R),
    weights_ok i_weights = true ->
    groups_ok d post = true ->
    Logit_fit E d (X_of d covariates) (w_of d i_weights) = inr fit ->
    well_shaped fit y post d covariates i_weights ->
    exists (ws : list string) (r : StdIPWDIDRCResult R),
      std_ipw_did_rc E y post d covariates i_weights false boot_type nboot
                     influence_func trim_level = (ws, inr r) /\
      let inf := inf_of E trim_level y d post (X_of d covariates)
                        (w_of d i_weights) (ps_of fit (X_of d covariates)) in
      let n := INR (List.length d) in
      List.length inf = List.length d /\
      att_inf_func r = (if influence_func then Some inf else None) /\
      se r = sqrt (sample_variance inf) / sqrt n /\
      se r = sqrt (sample_variance inf / n) /\
      uci r = att r + 1.96 * se r /\
      lci r = att r - 1.96 * se r.
Proof.
  intros E fit y post d covariates i_weights boot_type nboot influence_func
         trim_level Hw Hg Hfit Hshape.
  eexists. eexists. split.
  - apply std_ipw_did_rc_run with (fit := fit); try assumption. apply no_nan_R.
  - cbn zeta. cbn [result_of att se uci lci att_inf_func inference negb fst snd].
    split; [now apply inf_of_length|].
    set (inf := inf_of _ _ _ _ _ _ _ _).
    assert (Hse : (np_std_ddof1 inf / nsqrt (ofnat (List.length d)))%num
                  = sqrt (sample_variance inf) / sqrt (INR (List.length d))).
    { rewrite np_std_ddof1_sample_variance, ofnat_INR. reflexivity. }
    assert (Hlit : lit_1_96 = 1.96) by (unfold lit_1_96; simpl; lra).
    split; [now destruct influence_func|].
    split; [exact Hse|]. split.
    + rewrite Hse. symmetry. apply sqrt_div_alt.
      apply lt_0_INR. eapply groups_ok_nonempty; eassumption.
    + rewrite Hlit. split; reflexivity.
Qed.
End AnalyticInference.

(** ** Intercept-only covariates and uniform weights *)

Section SimpleDiD.
Local Open Scope R_scope.

Lemma np_sum_repeat_one (n : nat) : np_sum (repeat 1 n) = INR n.
Proof.
  induction n as [|n IH]; [reflexivity|].
  cbn [repeat]. rewrite np_sum_cons, IH, S_INR. ring.
Qed.

Lemma normalize_ones (n : nat) :
  (0 < n)%nat -> normalize_weights (repeat 1 n) = repeat 1 n.
Proof.
  intros Hn. unfold normalize_weights, np_mean.
  rewrite np_sum_repeat_one, repeat_length, ofnat_INR, map_repeat.
  f_equal. cbn [ndiv Num_R]. field. apply not_0_INR. lia.
Qed.

Lemma combine3 (y : list R) (d post : list Z) :
  List.length y = List.length d ->
  List.length post = List.length d ->
  let us := combine y (combine d post) in
  y = map fst us /\
  d = map (fun u => fst (snd u)) us /\
  post = map (fun u => snd (snd u)) us /\
  List.length us = List.length d.
Proof.
  revert d post. induction y as [|a y IH]; intros [|g d] [|t post] Hy Hpost;
    try discriminate; cbn zeta.
  - repeat split.
  - cbn [combine map fst snd List.length].
    destruct (IH d post) as [H1 [H2 [H3 H4]]];
      [now injection Hy | now injection Hpost |].
    cbn zeta in *. rewrite <- H1, <- H2, <- H3, H4. repeat split.
Qed.

Lemma np_sum_indicator {U : Type} (c : R) (sel : U -> bool) (f : U -> R)
      (us : list U) :
  np_sum (map (fun u => c * (if sel u then 1 else 0) * f u) us)
  = c * np_sum (map f (filter sel us)).
Proof.
  induction us as [|u us IH]; cbn [map filter].
  - rewrite !np_sum_nil. ring.
  - rewrite np_sum_cons, IH. destruct (sel u); cbn [map].
    + rewrite np_sum_cons. ring.
    + ring.
Qed.

Lemma np_sum_ones {U : Type} (us : list U) :
  np_sum (map (fun _ => 1) us) = INR (List.length us).
Proof.
  induction us as [|u us IH]; [reflexivity|].
  cbn [map List.length]. rewrite np_sum_cons, IH, S_INR. ring.
Qed.

(** With weights that are a non-zero constant on a cell and zero elsewhere,
    the Hajek mean is the unweighted mean of the outcomes of the cell. *)
Lemma hajek_mean_indicator {U : Type} (c : R) (sel : U -> bool) (fy : U -> R)
      (us : list U) :
  c <> 0 ->
  filter sel us <> [] ->
  hajek_mean (map (fun u => c * (if sel u then 1 else 0)) us) (map fy us)
  = np_mean (map fy (filter sel us)).
Proof.
  intros Hc Hne. unfold hajek_mean, np_mean.
  rewrite zip_with_map, !length_map. cbn [ndiv nmul Num_R].
  rewrite np_sum_indicator.
  rewrite (np_sum_map_ext (fun u => c * (if sel u then 1 else 0))
                          (fun u => c * (if sel u then 1 else 0) * 1))
    by (intros; ring).
  rewrite np_sum_indicator, np_sum_ones, !ofnat_INR.
  assert (Hk : INR (List.length (filter sel us)) <> 0).
  { apply not_0_INR. destruct (filter sel us); [contradiction | discriminate]. }
  assert (Hn : INR (List.length us) <> 0).
  { apply not_0_INR. destruct us; [contradiction | discriminate]. }
  field. repeat split; assumption.
Qed.

(** The weights of one unit when the observation weight is 1 and the
    propensity [p] is below the trim level. *)
Lemma unit_weights_uniform (trim_level p : R) (g t : Z) :
  (g = 0 \/ g = 1)%Z -> (t = 0 \/ t = 1)%Z -> p < trim_level -> p < 1 ->
  let trim := ofbool (if (g =? 0)%Z then (p <? trim_level)%num else true) in
  (trim * ofZ 1 * ofZ g * ofZ (1 - t))%num
  = 1 * (if (g =? 1)%Z && (t =? 0)%Z then 1 else 0) /\
  (trim * ofZ 1 * ofZ g * ofZ t)%num
  = 1 * (if (g =? 1)%Z && (t =? 1)%Z then 1 else 0) /\
  (trim * ofZ 1 * p * ofZ (1 - g) * ofZ (1 - t) / (ofZ 1 - p))%num
  = odds p * (if (g =? 0)%Z && (t =? 0)%Z then 1 else 0) /\
  (trim * ofZ 1 * p * ofZ (1 - g) * ofZ t / (ofZ 1 - p))%num
  = odds p * (if (g =? 0)%Z && (t =? 1)%Z then 1 else 0).
Proof.
  intros Hg Ht Hp Hp1. apply Rltb_true in Hp. unfold odds.
  destruct Hg as [-> | ->]; destruct Ht as [-> | ->];
    cbn [Z.eqb Pos.eqb andb Z.sub Z.add Z.opp Z.pos_sub nltb Num_R ofbool];
    rewrite ?Hp; cbn [nmul nsub ndiv ofZ Num_R ofbool];
    repeat split; field; lra.
Qed.

Lemma cell_nonempty_In (g t : Z) (y : list R) (d post : list Z) :
  List.length y = List.length d ->
  List.length post = List.length d ->
  cell_values g t y d post <> [] ->
  In g d /\ In t post.
Proof.
  intros Hy Hpost Hne.
  destruct (combine3 y d post Hy Hpost) as [_ [Ed [Epost _]]]. cbn zeta in *.
  unfold cell_values in Hne.
  destruct (filter (in_cell g t) (combine y (combine d post))) as [|u l] eqn:Hf;
    [now elim Hne|].
  assert (Hin : In u (filter (in_cell g t) (combine y (combine d post))))
    by (rewrite Hf; now left).
  apply filter_In in Hin. destruct Hin as [Hin Hc].
  unfold in_cell in Hc. apply andb_true_iff in Hc. destruct Hc as [Hg Ht].
  apply Z.eqb_eq in Hg, Ht. split.
  - rewrite Ed, <- Hg. now apply (in_map (fun u => fst (snd u))).
  - rewrite Epost, <- Ht. now apply (in_map (fun u => snd (snd u))).
Qed.

Lemma filter_nonempty_map {U : Type} (sel : U -> bool) (f : U -> R) (us : list U) :
  map f (filter sel us) <> [] -> filter sel us <> [].
Proof. intros Hne Hf. apply Hne. now rewrite Hf. Qed.

Lemma cell_hajek {U : Type} (c : R) (sel : U -> bool) (F fy : U -> R)
      (us : list U) :
  c <> 0 ->
  filter sel us <> [] ->
  (forall u, In u us -> F u = c * (if sel u then 1 else 0)) ->
  hajek_mean (map F us) (map fy us) = np_mean (map fy (filter sel us)).
Proof.
  intros Hc Hne HF. rewrite (map_ext_in _ _ us HF).
  now apply hajek_mean_indicator.
Qed.

(** The estimate when every unit has weight 1 and the common clipped
    propensity [p] is below the trim level. *)
Lemma ipw_att_uniform (trim_level p : R) (y : list R) (d post : list Z) :
  binary d -> binary post ->
  List.length y = List.length d ->
  List.length post = List.length d ->
  0 < p < 1 -> p < trim_level ->
  cell_values 1 1 y d post <> [] ->
  cell_values 1 0 y d post <> [] ->
  cell_values 0 1 y d post <> [] ->
  cell_values 0 0 y d post <> [] ->
  ipw_att_of (build_weights trim_level (repeat 1 (List.length d))
                            (repeat p (List.length d)) d post) y
  = simple_did y d post.
Proof.
  intros Hd Hpost Hy Hlpost Hp Htrim H11 H10 H01 H00.
  rewrite ipw_att_double_difference.
  unfold double_difference, simple_did, cell_mean.
  unfold cell_values in *.
  destruct (combine3 y d post Hy Hlpost) as [Ey [Ed [Epost Hlen]]].
  cbn zeta in *. set (us := combine y (combine d post)) in *.
  rewrite <- Hlen, !repeat_as_map. clear Hlen Hy Hlpost.
  clearbody us. subst y d post.
  rewrite build_weights_map. cbn zeta.
  cbn [w_treat_pre w_treat_post w_cont_pre w_cont_post].
  assert (Hu : forall u, In u us ->
                 (fst (snd u) = 0 \/ fst (snd u) = 1)%Z /\
                 (snd (snd u) = 0 \/ snd (snd u) = 1)%Z).
  { intros u Hin. unfold binary in Hd, Hpost. rewrite Forall_forall in Hd, Hpost.
    split.
    - apply Hd. now apply (in_map (fun u => fst (snd u))).
    - apply Hpost. now apply (in_map (fun u => snd (snd u))). }
  assert (Ho : odds p <> 0) by (pose proof (odds_pos Hp); lra).
  assert (H1 : (1:R) <> 0) by lra.
  assert (Hp1 : p < 1) by lra.
  assert (Hcell : forall (c : R) (F : R * (Z * Z) -> R) (g t : Z),
             c <> 0 ->
             map fst (filter (in_cell g t) us) <> [] ->
             (forall u, (fst (snd u) = 0 \/ fst (snd u) = 1)%Z ->
                        (snd (snd u) = 0 \/ snd (snd u) = 1)%Z ->
                        F u = c * (if in_cell g t u then 1 else 0)) ->
             hajek_mean (map F us) (map fst us)
             = np_mean (map fst (filter (in_cell g t) us))).
  { intros c F g t Hc Hne HF. apply cell_hajek with (c := c);
      [assumption | eapply filter_nonempty_map; eassumption |].
    intros u Hin. destruct (Hu u Hin) as [Hg Ht]. now apply HF. }
  f_equal; f_equal.
  - apply Hcell with (c := 1); try assumption.
    intros u Hg Ht. apply (unit_weights_uniform Hg Ht Htrim Hp1).
  - apply Hcell with (c := 1); try assumption.
    intros u Hg Ht. apply (unit_weights_uniform Hg Ht Htrim Hp1).
  - apply Hcell with (c := odds p); try assumption.
    intros u Hg Ht. apply (unit_weights_uniform Hg Ht Htrim Hp1).
  - apply Hcell with (c := odds p); try assumption.
    intros u Hg Ht. apply (unit_weights_uniform Hg Ht Htrim Hp1).
Qed.

(** C9, as amended. With a single intercept column (given, or synthesized
    when covariates are omitted), uniform weights and hence one fitted
    probability [p] for every unit, the estimate is the difference in
    differences of the unweighted cell means, provided all four group-period
    cells are non-empty and the clipped [p] is below the trim level, so that
    no control unit is trimmed. *)
Theorem intercept_only_uniform_weights_did :
  forall (E : Collab R) (fit : LogitResults R) (y : list R) (post d : list Z)
         (covariates : option (list (list R))) (i_weights : option (list R))
         (boot : bool) (boot_type : string) (nboot : Z) (influence_func : bool)
         (trim_level p : R),
    covariates = None \/ covariates = Some (repeat [1] (List.length d)) ->
    i_weights = None \/
    (exists c, 0 < c /\ i_weights = Some (repeat c (List.length d))) ->
    binary d -> binary post ->
    List.length y = List.length d ->
    List.length post = List.length d ->
    Logit_fit E d (X_of d covariates) (w_of d i_weights) = inr fit ->
    predict fit (X_of d covariates) = repeat p (List.length d) ->
    np_clip lit_1e_6 (1 - lit_1e_6) p < trim_level ->
    cell_values 1 1 y d post <> [] ->
    cell_values 1 0 y d post <> [] ->
    cell_values 0 1 y d post <> [] ->
    cell_values 0 0 y d post <> [] ->
    exists (ws : list string) (r : StdIPWDIDRCResult R),
      std_ipw_did_rc E y post d covariates i_weights boot boot_type nboot
                     influence_func trim_level = (ws, inr r) /\
      att r = (cell_mean 1 1 y d post - cell_mean 1 0 y d post)
              - (cell_mean 0 1 y d post - cell_mean 0 0 y d post).
Proof.
  intros E fit y post d covariates i_weights boot boot_type nboot influence_func
         trim_level p Hcov Hiw Hd Hpost Hy Hlpost Hfit Hpred Htrim H11 H10 H01 H00.
  destruct (cell_nonempty_In 1 1 y d post Hy Hlpost H11) as [Hd1 Hp1].
  destruct (cell_nonempty_In 0 0 y d post Hy Hlpost H00) as [Hd0 Hp0].
  assert (Hg : groups_ok d post = true) by (apply groups_ok_In; tauto).
  assert (Hn : (0 < List.length d)%nat) by (eapply groups_ok_nonempty; eassumption).
  assert (Hok : weights_ok i_weights = true).
  { destruct Hiw as [-> | [c [Hc ->]]]; [reflexivity|].
    rewrite repeat_scale, weights_ok_scale by assumption.
    apply weights_ok_repeat_one. }
  assert (Hw : w_of d i_weights = repeat 1 (List.length d)).
  { transitivity (w_of d None).
    - destruct Hiw as [-> | [c [Hc ->]]]; [reflexivity|].
      apply w_of_constant. lra.
    - unfold w_of. cbn [raw_weights]. now apply normalize_ones. }
  eexists. eexists. split.
  - apply std_ipw_did_rc_run with (fit := fit); try assumption. apply no_nan_R.
  - cbn [result_of att]. unfold W_of, ps_of.
    rewrite Hw, Hpred, map_repeat.
    apply ipw_att_uniform; try assumption.
    apply np_clip_unit_interval.
Qed.
End SimpleDiD.

(** ** The four-unit sample in exact arithmetic *)

Section ExactRuns.
Local Open Scope R_scope.

Lemma np_clip_id (lo hi x : R) : lo <= x <= hi -> np_clip lo hi x = x.
Proof.
  intros [Hlo Hhi]. unfold np_clip. cbn [isnan nltb Num_R].
  apply Rltb_false in Hlo. rewrite Hlo.
  apply Rltb_false in Hhi. now rewrite Hhi.
Qed.

Lemma binary_d4 : binary d4.
Proof.
  unfold binary, d4.
  repeat (apply Forall_cons; [(left; reflexivity) || (right; reflexivity)|]).
  apply Forall_nil.
Qed.

Lemma binary_post4 : binary post4.
Proof.
  unfold binary, post4.
  repeat (apply Forall_cons; [(left; reflexivity) || (right; reflexivity)|]).
  apply Forall_nil.
Qed.

Lemma influence_function_form_witness :
  exists (ws : list string) (r : StdIPWDIDRCResult R),
    std_ipw_did_rc (T := R) model4 y4 post4 d4 None None false "weighted" 999 true
                   default_trim_level = (ws, inr r) /\
    att_inf_func r =
    Some (spec_influence
            (W_of default_trim_level d4 post4 (w_of d4 None)
                  (ps_of fit4 (X_of d4 None)))
            y4 d4 (X_of d4 None) (w_of d4 None) (ps_of fit4 (X_of d4 None))
            (spec_hessian_inverse model4 (List.length d4) (X_of d4 None)
                                  (w_of d4 None) (ps_of fit4 (X_of d4 None)))).
Proof.
  apply (@influence_function_form model4 fit4 y4 post4 d4 None None false
           "weighted"%string 999%Z default_trim_level); try reflexivity.
  repeat split; reflexivity.
Defined.

Lemma att_is_double_difference_of_hajek_means_witness :
  exists (ws : list string) (r : StdIPWDIDRCResult R),
    std_ipw_did_rc (T := R) model4 y4 post4 d4 None None false "weighted" 999 true
                   default_trim_level = (ws, inr r) /\
    let W := W_of default_trim_level d4 post4 (w_of d4 None)
                  (ps_of fit4 (X_of d4 None)) in
    att r = (hajek_mean (w_treat_post W) y4 - hajek_mean (w_treat_pre W) y4)
            - (hajek_mean (w_cont_post W) y4 - hajek_mean (w_cont_pre W) y4).
Proof.
  apply (@att_is_double_difference_of_hajek_means model4 fit4);
    try reflexivity.
  repeat split; reflexivity.
Defined.

Lemma weight_vectors_form_witness :
  let w := w_of d4 (@None (list R)) in
  let ps := ps_of fit4 (X_of d4 None) in
  W_of default_trim_level d4 post4 w ps
  = spec_weights default_trim_level w ps d4 post4.
Proof.
  apply (@weight_vectors_form fit4 default_trim_level d4 post4 None None);
    try reflexivity; [|apply binary_d4 | apply binary_post4].
  unfold d4. cbn [raw_weights List.length repeat].
  rewrite !np_sum_cons, np_sum_nil. cbn [ofZ Num_R]. lra.
Defined.

Lemma analytic_standard_error_witness :
  exists (ws : list string) (r : StdIPWDIDRCResult R),
    std_ipw_did_rc (T := R) model4 y4 post4 d4 None None false "weighted" 999 false
                   default_trim_level = (ws, inr r) /\
    att_inf_func r = None /\
    uci r = att r + 1.96 * se r /\
    lci r = att r - 1.96 * se r.
Proof.
  destruct (@analytic_standard_error model4 fit4 y4 post4 d4 None None
              "weighted"%string 999%Z false default_trim_level
              eq_refl eq_refl eq_refl
              (conj eq_refl (conj eq_refl (conj eq_refl (conj eq_refl eq_refl)))))
    as [ws [r [Hrun [_ [Hinf [_ [_ [Hu Hl]]]]]]]].
  exists ws, r. repeat split; assumption.
Defined.


Lemma intercept_only_uniform_weights_did_witness :
  exists (ws : list string) (r : StdIPWDIDRCResult R),
    std_ipw_did_rc (T := R) model4 y4 post4 d4 None None false "weighted" 999 false
                   default_trim_level = (ws, inr r) /\
    att r = (cell_mean 1 1 y4 d4 post4 - cell_mean 1 0 y4 d4 post4)
            - (cell_mean 0 1 y4 d4 post4 - cell_mean 0 0 y4 d4 post4).
Proof.
  apply (@intercept_only_uniform_weights_did model4 fit4 y4 post4 d4 None None
           false "weighted"%string 999%Z false default_trim_level one_half);
    try reflexivity; try discriminate.
  - now left.
  - now left.
  - apply binary_d4.
  - apply binary_post4.
  - rewrite np_clip_id; unfold lit_1e_6, default_trim_level, one_half;
      cbn [ndiv nsub ofZ Num_R]; lra.
Defined.
End ExactRuns.

(** ** Warnings, fallbacks and the rest of the result *)

Section FurtherProperties.
Context {T : Type} {NT : Num T}.
Local Open Scope num_scope.


(** When the matrix inverse raises, the call warns, uses the pseudo-inverse
    in the influence function and returns. *)
Theorem singular_hessian_falls_back_to_pinv :
  forall (E : Collab T) (fit : LogitResults T) (y : list T) (post d : list Z)
         (covariates : option (list (list T))) (i_weights : option (list T))
         (boot : bool) (boot_type : string) (nboot : Z) (trim_level : T),
    weights_ok i_weights = true ->
    groups_ok d post = true ->
    Logit_fit E d (X_of d covariates) (w_of d i_weights) = inr fit ->
    existsb isnan (params fit) = false ->
    well_shaped fit y post d covariates i_weights ->
    converged fit = true ->
    linalg_inv E (XtWX_of (X_of d covariates) (w_of d i_weights)
                          (ps_of fit (X_of d covariates))) = None ->
    exists r : StdIPWDIDRCResult T,
      std_ipw_did_rc E y post d covariates i_weights boot boot_type nboot
                     true trim_level = ([msg_pinv], inr r) /\
      let X := X_of d covariates in
      let w := w_of d i_weights in
      let ps := ps_of fit X in
      att_inf_func r =
      Some (influence_function
              (W_of trim_level d post w ps) y d X w ps
              (map (fun row => row [*.] ofnat (List.length d))
                   (linalg_pinv E (XtWX_of X w ps)))).
Proof.
  intros E fit y post d covariates i_weights boot boot_type nboot trim_level
         Hw Hg Hfit Hnan _ Hconv Hinv.
  eexists. split.
  - erewrite std_ipw_did_rc_run by eassumption.
    unfold warnings_of. rewrite Hconv, Hinv. reflexivity.
  - cbn zeta. cbn [result_of att_inf_func negb]. unfold inf_of, H_of.
    now rewrite Hinv.
Qed.


(** Every result echoes the configuration of the call. *)
Theorem result_metadata :
  forall (E : Collab T) (y : list T) (post d : list Z)
         (covariates : option (list (list T))) (i_weights : option (list T))
         (boot : bool) (boot_type : string) (nboot : Z) (influence_func : bool)
         (trim_level : T) (ws : list string) (r : StdIPWDIDRCResult T),
    std_ipw_did_rc E y post d covariates i_weights boot boot_type nboot
                   influence_func trim_level = (ws, inr r) ->
    args r = {| args_panel := false;
                args_normalized := true;
                args_boot := boot;
                args_boot_type := boot_type;
                args_nboot := nboot;
                args_type := "ipw";
                args_trim_level := trim_level |}.
Proof.
  intros E y post d covariates i_weights boot boot_type nboot influence_func
         trim_level ws r Hrun.
  destruct (std_ipw_did_rc_returns _ _ _ _ _ _ _ _ _ _ _ Hrun)
    as [fit [_ [_ [_ [_ [_ Hr]]]]]].
  subst r. reflexivity.
Qed.

(** With bootstrap, the draws come from the routine [boot_type] names, the
    standard error is their interquartile range over that of the normal
    distribution, and the bounds use the 0.95 quantile of the absolute
    studentized draws; the weighted draws are centred at the estimate. *)
Theorem bootstrap_inference :
  forall (E : Collab T) (y : list T) (post d : list Z)
         (covariates : option (list (list T))) (i_weights : option (list T))
         (boot_type : string) (nboot : Z) (influence_func : bool)
         (trim_level : T) (ws : list string) (r : StdIPWDIDRCResult T),
    std_ipw_did_rc E y post d covariates i_weights true boot_type nboot
                   influence_func trim_level = (ws, inr r) ->
    exists (fit : LogitResults T) (b : list T) (cv : T),
      Logit_fit E d (X_of d covariates) (w_of d i_weights) = inr fit /\
      let X := X_of d covariates in
      let w := w_of d i_weights in
      let inf := inf_of E trim_level y d post X w (ps_of fit X) in
      let q := stats_norm_ppf E lit_0_75 - stats_norm_ppf E lit_0_25 in
      boots r = Some b /\
      uci r = att r + cv * se r /\
      lci r = att r - cv * se r /\
      if String.eqb boot_type "multiplier"
      then b = mboot_did E inf nboot /\
           se r = stats_iqr E b / q /\
           cv = np_nanquantile E (map nabs (b [/.] se r)) lit_0_95
      else b = wboot_std_ipw_rc E y post d X w nboot trim_level /\
           se r = stats_iqr E (b [-.] att r) / q /\
           cv = np_nanquantile E (map nabs ((b [-.] att r) [/.] se r)) lit_0_95.
Proof.
  intros E y post d covariates i_weights boot_type nboot influence_func
         trim_level ws r Hrun.
  destruct (std_ipw_did_rc_returns _ _ _ _ _ _ _ _ _ _ _ Hrun)
    as [fit [_ [_ [Hfit [_ [_ Hr]]]]]].
  exists fit. subst r. unfold result_of, inference. cbn [negb].
  destruct (String.eqb boot_type "multiplier");
    cbn [att se uci lci boots fst snd];
    eexists; eexists; (split; [exact Hfit|]); cbn zeta;
    repeat split; reflexivity.
Qed.
End FurtherProperties.

Section FurtherRuns.
Local Open Scope float_scope.


Lemma singular_hessian_falls_back_to_pinv_witness :
  exists r : StdIPWDIDRCResult float,
    std_ipw_did_rc singular_model y4 post4 d4 None None false "weighted" 999
                   true default_trim_level = ([msg_pinv], inr r) /\
    att_inf_func r = Some [0; 0; 0; 0].
Proof.
  edestruct (@singular_hessian_falls_back_to_pinv float Num_float singular_model
               fit4 y4 post4 d4 None None false "weighted"%string 999%Z
               default_trim_level) as [r [Hrun Hinf]];
    try reflexivity; [repeat split; reflexivity|].
  exists r. split; [exact Hrun|].
  rewrite Hinf. vm_compute. reflexivity.
Defined.


Lemma result_metadata_witness :
  exists r : StdIPWDIDRCResult float,
    std_ipw_did_rc model4 y4 post4 d4 None None false "weighted" 999 false
                   default_trim_level = ([], inr r) /\
    args_type (args r) = "ipw"%string /\ args_normalized (args r) = true.
Proof.
  assert (Hrun : exists r : StdIPWDIDRCResult float,
             std_ipw_did_rc model4 y4 post4 d4 None None false "weighted" 999
                            false default_trim_level = ([], inr r))
    by (eexists; vm_compute; reflexivity).
  destruct Hrun as [r Hrun]. exists r. split; [exact Hrun|].
  rewrite (result_metadata _ _ _ _ _ _ _ _ _ _ _ Hrun).
  split; reflexivity.
Defined.

Lemma bootstrap_inference_witness :
  exists (r : StdIPWDIDRCResult float) (b : list float),
    std_ipw_did_rc model4 y4 post4 d4 None None true "multiplier" 999 false
                   default_trim_level = ([], inr r) /\
    boots r = Some b.
Proof.
  assert (Hrun : exists r : StdIPWDIDRCResult float,
             std_ipw_did_rc model4 y4 post4 d4 None None true "multiplier" 999
                            false default_trim_level = ([], inr r))
    by (eexists; vm_compute; reflexivity).
  destruct Hrun as [r Hrun]. exists r.
  destruct (bootstrap_inference _ _ _ _ _ _ _ _ _ _ Hrun)
    as [fit [b [cv [_ [Hb _]]]]].
  exists b. split; [exact Hrun | exact Hb].
Defined.
End FurtherRuns.

(** ** The order of the checks, and where failures come from *)

Section Failures.
Context {T : Type} {NT : Num T}.


End Failures.

Section FailureRuns.
Local Open Scope float_scope.

End FailureRuns.

(** ** Regular input: no cell mean is 0/0 *)

Section RegularFacts.
Local Open Scope R_scope.

Lemma np_sum_pos_of_nth (l : list R) (i : nat) :
  Forall (fun x => 0 <= x) l -> 0 < nth i l 0 -> 0 < np_sum l.
Proof.
  intros Hl. revert i. induction Hl as [|x l Hx Hl IH]; intros i Hi.
  - destruct i; simpl in Hi; lra.
  - rewrite np_sum_cons. pose proof (np_sum_nonneg Hl) as Hs.
    destruct i as [|i]; simpl in Hi; [lra|].
    pose proof (IH i Hi). lra.
Qed.

Lemma nth_normalize_weights (w : list R) (i : nat) :
  nth i (normalize_weights w) 0 = nth i w 0 / np_mean w.
Proof.
  unfold normalize_weights. cbn [ndiv Num_R].
  replace 0 with (0 / np_mean w) at 1 by (unfold Rdiv; ring).
  apply (map_nth (fun x => x / np_mean w)).
Qed.

Lemma spec_weights_nonneg (trim_level : R) (w ps : list R) (d post : list Z) :
  binary d -> binary post ->
  (forall i, 0 <= nth i w 0) ->
  (forall i, (i < List.length d)%nat -> 0 < nth i ps 0 < 1) ->
  let W := spec_weights trim_level w ps d post in
  Forall (fun x => 0 <= x) (w_treat_pre W) /\
  Forall (fun x => 0 <= x) (w_treat_post W) /\
  Forall (fun x => 0 <= x) (w_cont_pre W) /\
  Forall (fun x => 0 <= x) (w_cont_post W).
Proof.
  intros Hd Hpost Hw Hps.
  assert (Hind : forall l i, binary l ->
                   (IZR (nth i l 0%Z) = 0 \/ IZR (nth i l 0%Z) = 1)).
  { intros l i Hl. destruct (binary_nth i Hl) as [-> | ->]; [now left | now right]. }
  cbn zeta. cbn [spec_weights w_treat_pre w_treat_post w_cont_pre w_cont_post].
  repeat split; apply per_unit_Forall; intros i Hi;
    unfold spec_w_treat_pre, spec_w_treat_post, spec_w_cont_pre, spec_w_cont_post;
    cbn [nmul nsub ofZ Num_R];
    pose proof (Hw i) as Hwi; pose proof (odds_pos (Hps i Hi)) as Ho;
    destruct (spec_trim_cases trim_level (nth i ps 0) (nth i d 0%Z)) as [-> | ->];
    destruct (Hind d i Hd) as [-> | ->];
    destruct (Hind post i Hpost) as [-> | ->]; nra.
Qed.

(** The weight a unit that carries weight has in the vector of its cell. *)
Lemma cell_unit_weight_pos (trim_level w p : R) (g t : Z) :
  (g = 0 \/ g = 1)%Z -> (t = 0 \/ t = 1)%Z ->
  0 < w -> 0 < p < 1 -> (g = 0%Z -> p < trim_level) ->
  0 < (if (g =? 1)%Z
       then if (t =? 1)%Z then spec_w_treat_post trim_level w p g t
            else spec_w_treat_pre trim_level w p g t
       else if (t =? 1)%Z then spec_w_cont_post trim_level w p g t
            else spec_w_cont_pre trim_level w p g t).
Proof.
  intros Hg Ht Hw Hp Htrim. pose proof (odds_pos Hp) as Ho.
  unfold spec_w_treat_pre, spec_w_treat_post, spec_w_cont_pre, spec_w_cont_post,
    spec_trim.
  destruct Hg as [-> | ->]; destruct Ht as [-> | ->];
    cbn [Z.eqb Pos.eqb nltb nmul nsub ofZ Num_R];
    try (rewrite (proj2 (Rltb_true _ _) (Htrim eq_refl)));
    nra.
Qed.

(** On regular input the input passes the group checks, the four weight
    vectors are those of the specification, non-negative, of the length of
    the sample, and of positive sum. *)
Lemma regular_cells (fit : LogitResults R) (trim_level : R) (y : list R)
      (post d : list Z) (covariates : option (list (list R)))
      (i_weights : option (list R)) :
  regular_input fit trim_level y post d covariates i_weights ->
  let W := W_of trim_level d post (w_of d i_weights)
                (ps_of fit (X_of d covariates)) in
  groups_ok d post = true /\
  (Forall (fun x => 0 <= x) (w_treat_pre W) /\ 0 < np_sum (w_treat_pre W)) /\
  (Forall (fun x => 0 <= x) (w_treat_post W) /\ 0 < np_sum (w_treat_post W)) /\
  (Forall (fun x => 0 <= x) (w_cont_pre W) /\ 0 < np_sum (w_cont_pre W)) /\
  (Forall (fun x => 0 <= x) (w_cont_post W) /\ 0 < np_sum (w_cont_post W)).
Proof.
  intros [Hok [Hd [Hpost [Hshape Hcells]]]]. cbn zeta in *.
  destruct Hshape as [Hy [Hlpost [Hlw [HX Hlps]]]].
  destruct Hcells as [C10 [C11 [C00 C01]]].
  set (w := w_of d i_weights). set (ps := ps_of fit (X_of d covariates)).
  pose proof (weights_ok_nonneg (List.length d) _ Hok) as Hraw.
  assert (Hsum : 0 < np_sum (raw_weights (List.length d) i_weights)).
  { destruct C10 as [i [_ [_ [_ [Hwi _]]]]].
    now apply np_sum_pos_of_nth with (i := i). }
  pose proof (np_mean_pos _ Hsum) as Hmean.
  assert (Hlw' : List.length w = List.length d)
    by (unfold w, w_of, normalize_weights; now rewrite length_map).
  assert (Hlps' : List.length ps = List.length d)
    by (unfold ps, ps_of; now rewrite length_map).
  assert (Hw : forall i, 0 <= nth i w 0).
  { intros i. unfold w, w_of. rewrite nth_normalize_weights.
    apply Rmult_le_pos; [|left; now apply Rinv_0_lt_compat].
    destruct (Nat.lt_ge_cases i (List.length (raw_weights (List.length d) i_weights)))
      as [Hi|Hi].
    - rewrite Forall_forall in Hraw. apply Hraw. now apply nth_In.
    - rewrite nth_overflow by assumption. lra. }
  assert (Hps : forall i, (i < List.length d)%nat -> 0 < nth i ps 0 < 1).
  { intros i Hi. apply ps_of_nth. lia. }
  assert (HW : W_of trim_level d post w ps = spec_weights trim_level w ps d post).
  { apply build_weights_spec; try assumption. intros i. apply ps_of_below_one. }
  rewrite HW.
  destruct (@spec_weights_nonneg trim_level w ps d post Hd Hpost Hw Hps)
    as [N1 [N2 [N3 N4]]].
  assert (Hpos : forall g t,
             cell_has_weight trim_level (raw_weights (List.length d) i_weights)
                             ps d post g t ->
             exists i, (i < List.length d)%nat /\
                       0 < (if (g =? 1)%Z
                            then if (t =? 1)%Z
                                 then nth i (w_treat_post
                                               (spec_weights trim_level w ps d post)) 0
                                 else nth i (w_treat_pre
                                               (spec_weights trim_level w ps d post)) 0
                            else if (t =? 1)%Z
                                 then nth i (w_cont_post
                                               (spec_weights trim_level w ps d post)) 0
                                 else nth i (w_cont_pre
                                               (spec_weights trim_level w ps d post)) 0)).
  { intros g t [i [Hi [Hg [Ht [Hwi Htrim]]]]]. exists i. split; [assumption|].
    cbn [spec_weights w_treat_pre w_treat_post w_cont_pre w_cont_post].
    rewrite !per_unit_nth by assumption.
    assert (Hwn : 0 < nth i w 0).
    { unfold w, w_of. rewrite nth_normalize_weights.
      apply Rdiv_lt_0_compat; assumption. }
    pose proof (@cell_unit_weight_pos trim_level (nth i w 0) (nth i ps 0)
                  (nth i d 0%Z) (nth i post 0%Z)
                  (binary_nth i Hd) (binary_nth i Hpost) Hwn (Hps i Hi)) as Hc.
    rewrite Hg, Ht in Hc. rewrite Hg, Ht. apply Hc. intros H0. now apply Htrim. }
  split.
  { apply groups_ok_In.
    destruct C11 as [i [Hi [Hg [Ht _]]]]. destruct C00 as [j [Hj [Hg0 [Ht0 _]]]].
    split; [rewrite <- Hg; apply nth_In; lia|].
    split; [rewrite <- Hg0; apply nth_In; lia|].
    split; [rewrite <- Ht | rewrite <- Ht0]; apply nth_In; lia. }
  destruct (Hpos _ _ C10) as [i1 [_ P1]]. destruct (Hpos _ _ C11) as [i2 [_ P2]].
  destruct (Hpos _ _ C00) as [i3 [_ P3]]. destruct (Hpos _ _ C01) as [i4 [_ P4]].
  cbn [Z.eqb Pos.eqb] in P1, P2, P3, P4.
  repeat split; try assumption; eapply np_sum_pos_of_nth; eassumption.
Qed.
End RegularFacts.

(** ** Clipping, trimming and the size of the weights *)

Section TrimmingProperties.
Local Open Scope R_scope.

Lemma trim_mask_clipped (trim_level : R) (d : list Z) (raw : list R)
      (f : Z -> bool) :
  List.length raw = List.length d ->
  (forall p, (np_clip lit_1e_6 (ofZ 1 - lit_1e_6) p <? trim_level)%num = f 0%Z) ->
  (forall g, g <> 0%Z -> f g = true) ->
  trim_mask trim_level d (map (np_clip lit_1e_6 (ofZ 1 - lit_1e_6)) raw)
  = map f d.
Proof.
  intros Hlen Hp Hf. unfold trim_mask. revert raw Hlen.
  induction d as [|g d IH]; intros [|p raw] Hlen; try discriminate;
    [reflexivity|].
  cbn [map zip_with]. rewrite IH by (now injection Hlen). f_equal.
  destruct (g =? 0)%Z eqn:Hg.
  - apply Z.eqb_eq in Hg. subst g. apply Hp.
  - apply Z.eqb_neq in Hg. symmetry. now apply Hf.
Qed.

(** The clip of line 137 decides what the extreme trim levels do. A trim
    level above [1 - 1e-6] trims no unit, since no clipped propensity reaches
    it; a trim level of [1e-6] or less trims every control unit, since every
    clipped propensity is at least [1e-6]: the mask is then the treatment
    indicator. *)
Theorem extreme_trim_levels :
  forall (fit : LogitResults R) (X : list (list R)) (d : list Z)
         (trim_level : R),
    List.length (predict fit X) = List.length d ->
    (1 - lit_1e_6 < trim_level ->
     trim_mask trim_level d (ps_of fit X) = map (fun _ => true) d) /\
    (trim_level <= lit_1e_6 ->
     trim_mask trim_level d (ps_of fit X) = map (fun g => negb (g =? 0)%Z) d).
Proof.
  intros fit X d trim_level Hlen. unfold ps_of. split; intros Htrim.
  - apply trim_mask_clipped; [assumption | | reflexivity].
    intros p. apply Rltb_true. pose proof (np_clip_range p) as Hr.
    cbn [nsub ofZ Num_R] in *. lra.
  - apply trim_mask_clipped; [assumption | |].
    + intros p. cbn [Z.eqb negb]. apply Rltb_false.
      pose proof (np_clip_range p) as Hr. cbn [nsub ofZ Num_R] in *. lra.
    + intros g Hg. apply Z.eqb_neq in Hg. now rewrite Hg.
Qed.

(** The weights of the treated cells are the observation weights on the
    cells: they depend neither on the fitted propensities nor on the trim
    level, which act on control units only. *)
Theorem treated_weights_ignore_propensity :
  forall (trim_level trim_level' : R) (w ps ps' : list R) (d post : list Z),
    binary d ->
    List.length w = List.length d ->
    List.length post = List.length d ->
    List.length ps = List.length d ->
    List.length ps' = List.length d ->
    let W := build_weights trim_level w ps d post in
    let W' := build_weights trim_level' w ps' d post in
    w_treat_pre W = w_treat_pre W' /\
    w_treat_post W = w_treat_post W' /\
    w_treat_pre W = w [*] map ofZ d [*] map (fun t => ofZ (1 - t)) post /\
    w_treat_post W = w [*] map ofZ d [*] map ofZ post.
Proof.
  intros trim_level trim_level' w ps ps' d post Hd Hw Hpost Hps Hps'.
  set (n := List.length d).
  assert (Hform : forall tl q, List.length q = List.length d ->
            w_treat_pre (build_weights tl w q d post)
            = w [*] map ofZ d [*] map (fun t => ofZ (1 - t)) post /\
            w_treat_post (build_weights tl w q d post)
            = w [*] map ofZ d [*] map ofZ post).
  { intros tl q Hq.
    assert (Heq : build_weights tl w q d post =
                  build_weights tl
                    (map (fun i => nth i w 0) (seq 0 n))
                    (map (fun i => nth i q 0) (seq 0 n))
                    (map (fun i => nth i d 0%Z) (seq 0 n))
                    (map (fun i => nth i post 0%Z) (seq 0 n))).
    { f_equal; now apply list_as_map_seq_n. }
    assert (Hpre : w [*] map ofZ d [*] map (fun t => ofZ (1 - t)) post =
                   map (fun i => nth i w 0 * IZR (nth i d 0%Z)
                                 * IZR (1 - nth i post 0%Z)) (seq 0 n)).
    { transitivity
        (map (fun i => nth i w 0) (seq 0 n)
         [*] map ofZ (map (fun i => nth i d 0%Z) (seq 0 n))
         [*] map (fun t => ofZ (1 - t)) (map (fun i => nth i post 0%Z) (seq 0 n))).
      - repeat f_equal; now apply list_as_map_seq_n.
      - rewrite !map_map, !zip_with_map. reflexivity. }
    assert (Hpst : w [*] map ofZ d [*] map ofZ post =
                   map (fun i => nth i w 0 * IZR (nth i d 0%Z)
                                 * IZR (nth i post 0%Z)) (seq 0 n)).
    { transitivity
        (map (fun i => nth i w 0) (seq 0 n)
         [*] map ofZ (map (fun i => nth i d 0%Z) (seq 0 n))
         [*] map ofZ (map (fun i => nth i post 0%Z) (seq 0 n))).
      - repeat f_equal; now apply list_as_map_seq_n.
      - rewrite !map_map, !zip_with_map. reflexivity. }
    rewrite Hpre, Hpst, Heq, build_weights_map. cbn zeta.
    cbn [w_treat_pre w_treat_post].
    split; apply map_ext; intros i;
      rewrite (trim_mask_unit tl (nth i q 0) (binary_nth i Hd));
      unfold spec_trim; cbn [nmul nsub ofZ Num_R];
      destruct (binary_nth i Hd) as [-> | ->]; cbn [Z.eqb Pos.eqb]; ring. }
  destruct (Hform trim_level ps Hps) as [E1 E2].
  destruct (Hform trim_level' ps' Hps') as [E1' E2'].
  cbn zeta. rewrite E1, E2, E1', E2'. repeat split.
Qed.
End TrimmingProperties.

(** ** Bounds on the weights, the estimate and the interval *)

Section Bounds.
Local Open Scope R_scope.
Local Abbreviation sqrt := R_sqrt.sqrt.

Lemma odds_bounded (p : R) :
  lit_1e_6 <= p <= 1 - lit_1e_6 -> 0 < odds p <= 999999.
Proof.
  intros Hp. assert (Hlit : lit_1e_6 = 1 / 1000000) by reflexivity.
  rewrite Hlit in Hp. unfold odds. cbn [ndiv nsub ofZ Num_R]. split.
  - apply Rdiv_lt_0_compat; lra.
  - apply (Rmult_le_reg_r (1 - p)); [lra|].
    unfold Rdiv. rewrite Rmult_assoc, Rinv_l by lra. lra.
Qed.

(** The clip caps the weights: a treated unit weighs at most its normalized
    observation weight, and a control unit at most 999999 times it, the odds
    of the largest clipped propensity [1 - 1e-6]. *)
Theorem weights_are_capped :
  forall (fit : LogitResults R) (trim_level : R) (d post : list Z)
         (covariates : option (list (list R))) (i_weights : option (list R)),
    weights_ok i_weights = true ->
    0 < np_sum (raw_weights (List.length d) i_weights) ->
    binary d -> binary post ->
    List.length post = List.length d ->
    List.length (raw_weights (List.length d) i_weights) = List.length d ->
    List.length (predict fit (X_of d covariates)) = List.length d ->
    let w := w_of d i_weights in
    let W := W_of trim_level d post w (ps_of fit (X_of d covariates)) in
    forall i : nat,
      nth i (w_treat_pre W) 0 <= nth i w 0 /\
      nth i (w_treat_post W) 0 <= nth i w 0 /\
      nth i (w_cont_pre W) 0 <= 999999 * nth i w 0 /\
      nth i (w_cont_post W) 0 <= 999999 * nth i w 0.
Proof.
  intros fit trim_level d post covariates i_weights Hok Hsum Hd Hpost Hlpost Hlw
         Hlps w W i.
  set (ps := ps_of fit (X_of d covariates)) in *.
  assert (Hlw' : List.length w = List.length d)
    by (unfold w, w_of, normalize_weights; now rewrite length_map).
  assert (Hlps' : List.length ps = List.length d)
    by (unfold ps, ps_of; now rewrite length_map).
  assert (Hw : 0 <= nth i w 0).
  { unfold w, w_of. rewrite nth_normalize_weights.
    pose proof (np_mean_pos _ Hsum) as Hm.
    apply Rmult_le_pos; [|left; now apply Rinv_0_lt_compat].
    destruct (Nat.lt_ge_cases i (List.length (raw_weights (List.length d) i_weights)))
      as [Hi|Hi].
    - pose proof (weights_ok_nonneg (List.length d) _ Hok) as Hraw.
      rewrite Forall_forall in Hraw. apply Hraw. now apply nth_In.
    - rewrite nth_overflow by assumption. lra. }
  assert (HW : W = spec_weights trim_level w ps d post).
  { apply build_weights_spec; try assumption. intros j. apply ps_of_below_one. }
  rewrite HW. cbn [spec_weights w_treat_pre w_treat_post w_cont_pre w_cont_post].
  destruct (Nat.lt_ge_cases i (List.length d)) as [Hi|Hi].
  2:{ rewrite !per_unit_overflow by assumption. repeat split; lra. }
  rewrite !per_unit_nth by assumption.
  assert (Hp : lit_1e_6 <= nth i ps 0 <= 1 - lit_1e_6).
  { unfold ps, ps_of.
    rewrite (nth_indep _ 0 (np_clip lit_1e_6 (ofZ 1 - lit_1e_6) 0))
      by (rewrite length_map; lia).
    rewrite map_nth. apply np_clip_range. }
  pose proof (odds_bounded Hp) as Ho.
  assert (Hind : forall l, binary l ->
                   (IZR (nth i l 0%Z) = 0 \/ IZR (nth i l 0%Z) = 1)).
  { intros l Hl. destruct (binary_nth i Hl) as [-> | ->]; [now left | now right]. }
  unfold spec_w_treat_pre, spec_w_treat_post, spec_w_cont_pre, spec_w_cont_post.
  cbn [nmul nsub ofZ Num_R].
  destruct (spec_trim_cases trim_level (nth i ps 0) (nth i d 0%Z)) as [-> | ->];
    destruct (Hind d Hd) as [-> | ->];
    destruct (Hind post Hpost) as [-> | ->]; repeat split; nra.
Qed.

Lemma weighted_sum_bounds (lo hi : R) (w y : list R) :
  List.length w = List.length y ->
  Forall (fun x => 0 <= x) w ->
  Forall (fun v => lo <= v <= hi) y ->
  lo * np_sum w <= np_sum (w [*] y) <= hi * np_sum w.
Proof.
  intros Hlen Hw. revert y Hlen.
  induction Hw as [|x w Hx Hw IH]; intros [|v y] Hlen Hy; try discriminate.
  - cbn [zip_with]. rewrite np_sum_nil. lra.
  - cbn [zip_with]. rewrite !np_sum_cons.
    inversion Hy as [|? ? Hv Hy']; subst.
    assert (Hl : List.length w = List.length y) by (now injection Hlen).
    pose proof (IH y Hl Hy') as IH'.
    assert (Hxl : x * lo <= x * v) by (apply Rmult_le_compat_l; lra).
    assert (Hxh : x * v <= x * hi) by (apply Rmult_le_compat_l; lra).
    revert IH'. generalize (np_sum (w [*] y)) (np_sum w). intros a b IH'.
    cbn [nadd nmul Num_R]. lra.
Qed.

(** A cell mean is an average of the outcomes with non-negative weights that
    sum to one, so it lies between the smallest and the largest outcome. *)
Lemma att_cell_bounds (lo hi : R) (w y : list R) :
  List.length w = List.length y ->
  Forall (fun x => 0 <= x) w ->
  0 < np_sum w ->
  Forall (fun v => lo <= v <= hi) y ->
  lo <= att_cell w y <= hi.
Proof.
  intros Hlen Hw Hs Hy. rewrite att_cell_hajek. unfold hajek_mean, np_mean.
  rewrite zip_with_length by assumption. cbn [ndiv Num_R]. rewrite ofnat_INR.
  assert (Hn : 0 < INR (List.length w)).
  { apply lt_0_INR. destruct w; [rewrite np_sum_nil in Hs; lra | simpl; lia]. }
  pose proof (weighted_sum_bounds Hlen Hw Hy) as [Hlo Hhi].
  replace (np_sum (w [*] y) / INR (List.length w) / (np_sum w / INR (List.length w)))
    with (np_sum (w [*] y) / np_sum w) by (field; lra).
  split.
  - apply (Rmult_le_reg_r (np_sum w)); [assumption|].
    unfold Rdiv. rewrite Rmult_assoc, Rinv_l by lra. lra.
  - apply (Rmult_le_reg_r (np_sum w)); [assumption|].
    unfold Rdiv. rewrite Rmult_assoc, Rinv_l by lra. lra.
Qed.

(** On regular input with outcomes between [lo] and [hi], the estimate is a
    double difference of four averages of the outcomes: it is at most twice
    the range of the outcomes in absolute value. *)
Theorem att_within_twice_the_outcome_range :
  forall (E : Collab R) (fit : LogitResults R) (y : list R) (post d : list Z)
         (covariates : option (list (list R))) (i_weights : option (list R))
         (boot : bool) (boot_type : string) (nboot : Z) (influence_func : bool)
         (trim_level lo hi : R),
    regular_input fit trim_level y post d covariates i_weights ->
    Logit_fit E d (X_of d covariates) (w_of d i_weights) = inr fit ->
    Forall (fun v => lo <= v <= hi) y ->
    exists (ws : list string) (r : StdIPWDIDRCResult R),
      std_ipw_did_rc E y post d covariates i_weights boot boot_type nboot
                     influence_func trim_level = (ws, inr r) /\
      Rabs (att r) <= 2 * (hi - lo).
Proof.
  intros E fit y post d covariates i_weights boot boot_type nboot influence_func
         trim_level lo hi Hreg Hfit Hy.
  destruct (regular_cells Hreg) as [Hg [[N1 P1] [[N2 P2] [[N3 P3] [N4 P4]]]]].
  destruct Hreg as [Hok [Hd [Hpost [Hshape _]]]].
  destruct Hshape as [Hly [Hlpost [Hlw [HX Hlps]]]].
  assert (Hlw' : List.length (w_of d i_weights) = List.length d)
    by (unfold w_of, normalize_weights; now rewrite length_map).
  assert (Hlps' : List.length (ps_of fit (X_of d covariates)) = List.length d)
    by (unfold ps_of; now rewrite length_map).
  destruct (build_weights_length trim_level _ _ _ _ Hlw' Hlps' Hlpost)
    as [L1 [L2 [L3 L4]]].
  eexists. eexists. split.
  - apply std_ipw_did_rc_run with (fit := fit); try assumption. apply no_nan_R.
  - cbn [result_of att]. unfold ipw_att_of. cbn [nsub Num_R].
    unfold W_of in *.
    pose proof (@att_cell_bounds lo hi _ y (eq_trans L1 (eq_sym Hly)) N1 P1 Hy).
    pose proof (@att_cell_bounds lo hi _ y (eq_trans L2 (eq_sym Hly)) N2 P2 Hy).
    pose proof (@att_cell_bounds lo hi _ y (eq_trans L3 (eq_sym Hly)) N3 P3 Hy).
    pose proof (@att_cell_bounds lo hi _ y (eq_trans L4 (eq_sym Hly)) N4 P4 Hy).
    apply Rabs_le. lra.
Qed.

End Bounds.

(** ** What the outcomes can change *)

Section ZipFacts.
Context {A A' B B' C D : Type}.

Lemma zip_with_map_l (f : A -> B -> C) (g : A' -> A) (xs : list A') (ys : list B) :
  zip_with f (map g xs) ys = zip_with (fun a b => f (g a) b) xs ys.
Proof.
  revert ys. induction xs as [|x xs IH]; intros [|y ys]; simpl; try reflexivity.
  now rewrite IH.
Qed.

Lemma zip_with_map_r (f : A -> B -> C) (g : B' -> B) (xs : list A) (ys : list B') :
  zip_with f xs (map g ys) = zip_with (fun a b => f a (g b)) xs ys.
Proof.
  revert ys. induction xs as [|x xs IH]; intros [|y ys]; simpl; try reflexivity.
  now rewrite IH.
Qed.

Lemma map_zip_with (h : C -> D) (f : A -> B -> C) (xs : list A) (ys : list B) :
  map h (zip_with f xs ys) = zip_with (fun a b => h (f a b)) xs ys.
Proof.
  revert ys. induction xs as [|x xs IH]; intros [|y ys]; simpl; try reflexivity.
  now rewrite IH.
Qed.

Lemma zip_with_ext (f g : A -> B -> C) (xs : list A) (ys : list B) :
  (forall a b, f a b = g a b) -> zip_with f xs ys = zip_with g xs ys.
Proof.
  intros Hfg. revert ys.
  induction xs as [|x xs IH]; intros [|y ys]; simpl; try reflexivity.
  now rewrite Hfg, IH.
Qed.
End ZipFacts.

Section OutcomeFacts.
Local Open Scope R_scope.

(** Two arrays combined with a third, equal position by position. *)
Lemma zip_with_pointwise (f g : R -> R -> R) (w y y' : list R) :
  List.length y' = List.length y ->
  (forall i, (i < List.length y)%nat ->
             f (nth i w 0) (nth i y' 0) = g (nth i w 0) (nth i y 0)) ->
  zip_with f w y' = zip_with g w y.
Proof.
  revert y y'. induction w as [|a w IH]; intros [|v y] [|v' y'] Hlen Hfg;
    try discriminate; try reflexivity.
  cbn [zip_with]. f_equal.
  - apply (Hfg 0%nat). simpl. lia.
  - apply IH; [now injection Hlen|]. intros i Hi. apply (Hfg (S i)). simpl. lia.
Qed.

Lemma inf_cell_zip (w y : list R) :
  inf_cell w y =
  zip_with (fun a b => a * b / np_mean w - a * att_cell w y / np_mean w) w y.
Proof.
  unfold inf_cell. generalize (att_cell w y). intros h.
  unfold eta. generalize (np_mean w). intros m.
  revert y. induction w as [|a w IH]; intros [|v y]; try reflexivity.
  cbn [zip_with map]. now rewrite IH.
Qed.

Lemma m2_zip (w y : list R) (X : list (list R)) :
  m2 w y X =
  mean_axis0 (scale_rows (zip_with (fun a b => a * (b - att_cell w y)) w y) X)
  [/.] np_mean w.
Proof. unfold m2. now rewrite zip_with_map_r. Qed.

Lemma np_sum_zip_shift (w y : list R) (k : R) :
  List.length w = List.length y ->
  np_sum (zip_with (fun a b => a * b + a * k) w y) = np_sum (w [*] y) + k * np_sum w.
Proof.
  revert y. induction w as [|a w IH]; intros [|v y] Hlen; try discriminate.
  - cbn [zip_with]. rewrite np_sum_nil. ring.
  - cbn [zip_with]. rewrite !np_sum_cons, IH by (now injection Hlen).
    cbn [nmul Num_R]. ring.
Qed.

(** The outcomes of a cell moved by [k] on the units that have weight in the
    cell: the cell mean moves by [k], and the leading term of the influence
    function and the derivative [m2] do not move. With [k = 0] the outcomes
    of the units without weight are arbitrary. *)
Lemma cell_shift (w y y' : list R) (k : R) :
  List.length w = List.length y ->
  List.length y' = List.length y ->
  k = 0 \/ 0 < np_sum w ->
  (forall i, (i < List.length y)%nat ->
             nth i w 0 = 0 \/ nth i y' 0 = nth i y 0 + k) ->
  att_cell w y' = att_cell w y + k /\
  inf_cell w y' = inf_cell w y /\
  (forall X, m2 w y' X = m2 w y X).
Proof.
  intros Hw Hy' Hk Hunits.
  assert (Hatt : att_cell w y' = att_cell w y + k).
  { rewrite !att_cell_hajek. unfold hajek_mean.
    assert (Hz : w [*] y' = zip_with (fun a b => a * b + a * k) w y).
    { apply zip_with_pointwise; [assumption|]. intros i Hi.
      cbn [nmul Num_R]. destruct (Hunits i Hi) as [-> | ->]; ring. }
    assert (Hm : np_mean (w [*] y') = np_mean (w [*] y) + k * np_mean w).
    { unfold np_mean. rewrite Hz, np_sum_zip_shift by assumption.
      rewrite !zip_with_length by assumption.
      cbn [ndiv Num_R]. unfold Rdiv. ring. }
    rewrite Hm. cbn [ndiv Num_R]. destruct Hk as [-> | Hs].
    - unfold Rdiv. ring.
    - pose proof (np_mean_pos _ Hs). field. lra. }
  split; [exact Hatt|]. split.
  - rewrite !inf_cell_zip, Hatt. apply zip_with_pointwise; [assumption|].
    intros i Hi. unfold Rdiv. destruct (Hunits i Hi) as [-> | ->]; ring.
  - intros X. rewrite !m2_zip, Hatt.
    apply (f_equal (fun Z => mean_axis0 (scale_rows Z X) [/.] np_mean w)).
    apply zip_with_pointwise; [assumption|].
    intros i Hi. destruct (Hunits i Hi) as [-> | ->]; ring.
Qed.

(** The weights of unit [i], as the code computes them. *)
Lemma build_weights_nth (trim_level : R) (w ps : list R) (d post : list Z)
      (i : nat) :
  List.length w = List.length d ->
  List.length ps = List.length d ->
  List.length post = List.length d ->
  (i < List.length d)%nat ->
  let W := build_weights trim_level w ps d post in
  let trim := ofbool (if (nth i d 0 =? 0)%Z then Rltb (nth i ps 0) trim_level
                      else true) in
  nth i (w_treat_pre W) 0
  = trim * nth i w 0 * IZR (nth i d 0%Z) * IZR (1 - nth i post 0%Z) /\
  nth i (w_treat_post W) 0
  = trim * nth i w 0 * IZR (nth i d 0%Z) * IZR (nth i post 0%Z) /\
  nth i (w_cont_pre W) 0
  = trim * nth i w 0 * nth i ps 0 * IZR (1 - nth i d 0%Z)
    * IZR (1 - nth i post 0%Z) / (1 - nth i ps 0) /\
  nth i (w_cont_post W) 0
  = trim * nth i w 0 * nth i ps 0 * IZR (1 - nth i d 0%Z)
    * IZR (nth i post 0%Z) / (1 - nth i ps 0).
Proof.
  intros Hw Hps Hpost Hi. set (n := List.length d).
  assert (Heq : build_weights trim_level w ps d post =
                build_weights trim_level
                  (map (fun i => nth i w 0) (seq 0 n))
                  (map (fun i => nth i ps 0) (seq 0 n))
                  (map (fun i => nth i d 0%Z) (seq 0 n))
                  (map (fun i => nth i post 0%Z) (seq 0 n))).
  { f_equal; now apply list_as_map_seq_n. }
  cbn zeta. rewrite Heq, build_weights_map. cbn zeta.
  cbn [w_treat_pre w_treat_post w_cont_pre w_cont_post].
  rewrite !nth_map_seq by assumption. repeat split.
Qed.

End OutcomeFacts.

Section OutcomeInvariance.
Local Open Scope R_scope.



End OutcomeInvariance.

(** ** Outcomes in other units *)

Section OutcomeScaling.
Local Open Scope R_scope.
Local Abbreviation sqrt := R_sqrt.sqrt.

Lemma np_mean_scale (a : R) (l : list R) :
  np_mean (map (fun x => a * x) l) = a * np_mean l.
Proof.
  unfold np_mean. rewrite length_map, np_sum_scale_left.
  cbn [ndiv Num_R]. unfold Rdiv. ring.
Qed.

Lemma zip_scale_sub (a : R) (u v : list R) :
  map (fun x => a * x) u [-] map (fun x => a * x) v
  = map (fun x => a * x) (u [-] v).
Proof.
  rewrite zip_with_map_l, zip_with_map_r, map_zip_with.
  apply zip_with_ext. intros x y. cbn [nsub Num_R]. ring.
Qed.

Lemma zip_scale_add (a : R) (u v : list R) :
  map (fun x => a * x) u [+] map (fun x => a * x) v
  = map (fun x => a * x) (u [+] v).
Proof.
  rewrite zip_with_map_l, zip_with_map_r, map_zip_with.
  apply zip_with_ext. intros x y. cbn [nadd Num_R]. ring.
Qed.

Lemma dot_scale (a : R) (r v : list R) :
  dot r (map (fun x => a * x) v) = a * dot r v.
Proof.
  unfold dot. rewrite <- np_sum_scale_left. f_equal.
  rewrite zip_with_map_r, map_zip_with.
  apply zip_with_ext. intros x y. cbn [nmul Num_R]. ring.
Qed.

Lemma matvec_scale (a : R) (M : list (list R)) (v : list R) :
  matvec M (map (fun x => a * x) v) = map (fun x => a * x) (matvec M v).
Proof.
  unfold matvec. rewrite map_map. apply map_ext. intros r. apply dot_scale.
Qed.

Lemma att_cell_scale (a : R) (w y : list R) :
  att_cell w (map (fun v => a * v) y) = a * att_cell w y.
Proof.
  rewrite !att_cell_hajek. unfold hajek_mean.
  assert (Hz : w [*] map (fun v => a * v) y = map (fun v => a * v) (w [*] y)).
  { rewrite zip_with_map_r, map_zip_with.
    apply zip_with_ext. intros x v. cbn [nmul Num_R]. ring. }
  rewrite Hz, np_mean_scale. cbn [ndiv Num_R]. unfold Rdiv. ring.
Qed.

Lemma inf_cell_scale (a : R) (w y : list R) :
  inf_cell w (map (fun v => a * v) y) = map (fun v => a * v) (inf_cell w y).
Proof.
  rewrite !inf_cell_zip, att_cell_scale, zip_with_map_r, map_zip_with.
  apply zip_with_ext. intros x v. unfold Rdiv. ring.
Qed.

Lemma scale_rows_scale (a : R) (s : list R) (X : list (list R)) :
  scale_rows (map (fun x => a * x) s) X
  = map (map (fun x => a * x)) (scale_rows s X).
Proof.
  unfold scale_rows. rewrite zip_with_map_l, map_zip_with.
  apply zip_with_ext. intros x r. rewrite map_map.
  apply map_ext. intros z. cbn [nmul Num_R]. ring.
Qed.

Lemma mean_axis0_scale (a : R) (M : list (list R)) :
  mean_axis0 (map (map (fun x => a * x)) M)
  = map (fun x => a * x) (mean_axis0 M).
Proof.
  unfold mean_axis0, transpose.
  assert (Hk : ncols (map (map (fun x => a * x)) M) = ncols M)
    by (destruct M; [reflexivity | apply length_map]).
  rewrite Hk, !map_map. apply map_ext. intros j. unfold column.
  rewrite <- np_mean_scale, !map_map. f_equal.
  apply map_ext. intros r. apply nth_map_scale.
Qed.

Lemma m2_scale (a : R) (w y : list R) (X : list (list R)) :
  m2 w (map (fun v => a * v) y) X = map (fun v => a * v) (m2 w y X).
Proof.
  rewrite !m2_zip, att_cell_scale, zip_with_map_r.
  generalize (att_cell w y) (np_mean w). intros h m.
  transitivity
    (mean_axis0
       (scale_rows (map (fun x => a * x)
                        (zip_with (fun x v => x * (v - h)) w y)) X) [/.] m).
  - apply (f_equal (fun Z => mean_axis0 (scale_rows Z X) [/.] m)).
    rewrite map_zip_with. apply zip_with_ext. intros x v. ring.
  - rewrite scale_rows_scale, mean_axis0_scale, !map_map.
    apply map_ext. intros z. cbn [ndiv Num_R]. unfold Rdiv. ring.
Qed.

Lemma influence_function_scale (a : R) (W : WeightSet R) (y : list R)
      (d : list Z) (X : list (list R)) (w ps : list R) (H : list (list R)) :
  influence_function W (map (fun v => a * v) y) d X w ps H
  = map (fun v => a * v) (influence_function W y d X w ps H).
Proof.
  unfold influence_function. cbn zeta.
  rewrite !inf_cell_scale, !m2_scale.
  rewrite !zip_scale_sub, matvec_scale, zip_scale_add, zip_scale_sub.
  reflexivity.
Qed.

Lemma np_std_ddof1_scale (a : R) (xs : list R) :
  np_std_ddof1 (map (fun x => a * x) xs) = Rabs a * np_std_ddof1 xs.
Proof.
  rewrite !np_std_ddof1_sample_variance.
  assert (Hv : sample_variance (map (fun x => a * x) xs)
               = Rsqr a * sample_variance xs).
  { unfold sample_variance. rewrite np_mean_scale, map_map, length_map.
    generalize (np_mean xs). intros m. cbn [nsub nmul ndiv Num_R].
    assert (Hs : np_sum (map (fun x => (a * x - a * m) * (a * x - a * m)) xs)
                 = Rsqr a * np_sum (map (fun x => (x - m) * (x - m)) xs)).
    { rewrite <- np_sum_scale_left, map_map. apply np_sum_map_ext.
      intros x _. unfold Rsqr. ring. }
    rewrite Hs. unfold Rdiv. ring. }
  rewrite Hv, sqrt_mult_alt by apply Rle_0_sqr.
  now rewrite sqrt_Rsqr_abs.
Qed.

(** Outcomes measured in other units: multiplying every outcome by [a]
    multiplies the estimate and the influence function by [a] and the
    standard error by [|a|]; the bounds are multiplied by [a], and change
    places when [a] is negative. The warnings are the same. *)
Theorem outcome_scaling :
  forall (E : Collab R) (fit : LogitResults R) (y : list R) (post d : list Z)
         (covariates : option (list (list R))) (i_weights : option (list R))
         (boot_type : string) (nboot : Z) (influence_func : bool)
         (trim_level a : R),
    weights_ok i_weights = true ->
    groups_ok d post = true ->
    Logit_fit E d (X_of d covariates) (w_of d i_weights) = inr fit ->
    well_shaped fit y post d covariates i_weights ->
    exists (ws : list string) (r r' : StdIPWDIDRCResult R),
      std_ipw_did_rc E y post d covariates i_weights false boot_type nboot
                     influence_func trim_level = (ws, inr r) /\
      std_ipw_did_rc E (map (fun v => a * v) y) post d covariates i_weights false
                     boot_type nboot influence_func trim_level = (ws, inr r') /\
      att r' = a * att r /\
      se r' = Rabs a * se r /\
      att_inf_func r' = option_map (map (fun v => a * v)) (att_inf_func r) /\
      (0 <= a -> uci r' = a * uci r /\ lci r' = a * lci r) /\
      (a <= 0 -> uci r' = a * lci r /\ lci r' = a * uci r).
Proof.
  intros E fit y post d covariates i_weights boot_type nboot influence_func
         trim_level a Hok Hg Hfit _.
  eexists. eexists. eexists.
  split; [apply std_ipw_did_rc_run with (fit := fit);
          try assumption; apply no_nan_R|].
  split; [apply std_ipw_did_rc_run with (fit := fit);
          try assumption; apply no_nan_R|].
  cbn [result_of att se uci lci att_inf_func inference negb fst snd].
  set (X := X_of d covariates). set (w := w_of d i_weights).
  set (ps := ps_of fit X). set (W := W_of trim_level d post w ps).
  assert (Hatt : ipw_att_of W (map (fun v => a * v) y) = a * ipw_att_of W y).
  { unfold ipw_att_of. rewrite !att_cell_scale. cbn [nsub Num_R]. ring. }
  assert (Hinf : inf_of E trim_level (map (fun v => a * v) y) d post X w ps
                 = map (fun v => a * v) (inf_of E trim_level y d post X w ps)).
  { unfold inf_of. apply influence_function_scale. }
  rewrite Hatt, Hinf, np_std_ddof1_scale.
  generalize (ipw_att_of W y). intros att0.
  generalize (np_std_ddof1 (inf_of E trim_level y d post X w ps)).
  intros sd. generalize (nsqrt (ofnat (List.length d))). intros rn.
  generalize (@lit_1_96 R _). intros z.
  cbn [nadd nsub nmul ndiv Num_R].
  split; [reflexivity|]. split; [unfold Rdiv; ring|].
  split; [now destruct influence_func|].
  split; intros Ha.
  - rewrite Rabs_pos_eq by assumption. unfold Rdiv. split; ring.
  - rewrite Rabs_left1 by assumption. unfold Rdiv. split; ring.
Qed.
End OutcomeScaling.

(** ** The mean of the influence function *)

Section InfluenceMean.
Local Open Scope R_scope.

Lemma np_sum_zip_sub (u v : list R) :
  List.length u = List.length v -> np_sum (u [-] v) = np_sum u - np_sum v.
Proof.
  revert v. induction u as [|a u IH]; intros [|b v] Hlen; try discriminate.
  - cbn [zip_with]. rewrite np_sum_nil. ring.
  - cbn [zip_with]. rewrite !np_sum_cons, IH by (now injection Hlen).
    cbn [nsub Num_R]. ring.
Qed.

Lemma np_sum_zip_add (u v : list R) :
  List.length u = List.length v -> np_sum (u [+] v) = np_sum u + np_sum v.
Proof.
  revert v. induction u as [|a u IH]; intros [|b v] Hlen; try discriminate.
  - cbn [zip_with]. rewrite np_sum_nil. ring.
  - cbn [zip_with]. rewrite !np_sum_cons, IH by (now injection Hlen).
    cbn [nadd Num_R]. ring.
Qed.

Lemma np_sum_zip_leading (w y : list R) (p q : R) :
  List.length w = List.length y ->
  np_sum (zip_with (fun a b => a * b * p - a * q) w y)
  = np_sum (w [*] y) * p - q * np_sum w.
Proof.
  revert y. induction w as [|a w IH]; intros [|b y] Hlen; try discriminate.
  - cbn [zip_with]. rewrite np_sum_nil. ring.
  - cbn [zip_with]. rewrite !np_sum_cons, IH by (now injection Hlen).
    cbn [nmul Num_R]. ring.
Qed.

Lemma inf_cell_length (w y : list R) :
  List.length w = List.length y -> List.length (inf_cell w y) = List.length w.
Proof. intros Hlen. rewrite inf_cell_zip. now apply zip_with_length. Qed.

(** The leading term of a cell sums to zero over the sample. *)
Lemma inf_cell_sum (w y : list R) :
  List.length w = List.length y -> 0 < np_sum w -> np_sum (inf_cell w y) = 0.
Proof.
  intros Hlen Hs. pose proof (np_mean_pos _ Hs) as Hm.
  rewrite inf_cell_zip, att_cell_hajek.
  transitivity
    (np_sum (zip_with (fun a b => a * b * / np_mean w
                                  - a * (hajek_mean w y * / np_mean w)) w y)).
  { f_equal. apply zip_with_ext. intros a b. unfold Rdiv. ring. }
  rewrite np_sum_zip_leading by assumption.
  unfold hajek_mean, np_mean in *. rewrite zip_with_length by assumption.
  cbn [ndiv Num_R] in *. rewrite ofnat_INR in *.
  assert (Hn : 0 < INR (List.length w)).
  { apply lt_0_INR. destruct w; [rewrite np_sum_nil in Hs; lra | simpl; lia]. }
  field. split; lra.
Qed.

(** In each of the four cells the leading term of the influence function
    sums to zero, so the influence function a call returns on regular input
    sums to minus the sum of the estimation effect of the propensity score,
    the term [inf_cont_ps] of line 194. *)
Theorem influence_function_sum :
  forall (E : Collab R) (fit : LogitResults R) (y : list R) (post d : list Z)
         (covariates : option (list (list R))) (i_weights : option (list R))
         (boot : bool) (boot_type : string) (nboot : Z) (trim_level : R),
    regular_input fit trim_level y post d covariates i_weights ->
    Logit_fit E d (X_of d covariates) (w_of d i_weights) = inr fit ->
    exists (ws : list string) (r : StdIPWDIDRCResult R) (inf : list R),
      std_ipw_did_rc E y post d covariates i_weights boot boot_type nboot
                     true trim_level = (ws, inr r) /\
      att_inf_func r = Some inf /\
      np_sum inf
      = - np_sum (inf_cont_ps_of E trim_level y d post (X_of d covariates)
                                 (w_of d i_weights)
                                 (ps_of fit (X_of d covariates))).
Proof.
  intros E fit y post d covariates i_weights boot boot_type nboot trim_level
         Hreg Hfit.
  destruct (regular_cells Hreg) as [Hg [[_ P1] [[_ P2] [[_ P3] [_ P4]]]]].
  destruct Hreg as [Hok [Hd [Hpost [Hshape _]]]].
  destruct Hshape as [Hy [Hlpost [Hlw [HX Hlps]]]].
  eexists. eexists. eexists.
  split; [apply std_ipw_did_rc_run with (fit := fit);
          try assumption; apply no_nan_R|].
  cbn [result_of att_inf_func negb]. split; [reflexivity|].
  set (X := X_of d covariates) in *. set (w := w_of d i_weights) in *.
  set (ps := ps_of fit X) in *.
  assert (Hlw' : List.length w = List.length d)
    by (unfold w, w_of, normalize_weights; now rewrite length_map).
  assert (Hlps' : List.length ps = List.length d)
    by (unfold ps, ps_of; now rewrite length_map).
  destruct (build_weights_length trim_level _ _ _ _ Hlw' Hlps' Hlpost)
    as [L1 [L2 [L3 L4]]].
  unfold inf_of, inf_cont_ps_of, influence_function, W_of in *. cbn zeta.
  set (W := build_weights trim_level w ps d post) in *.
  set (ips := matvec _ _).
  assert (Hips : List.length ips = List.length d).
  { assert (Hs1 : List.length (map ofZ d [-] ps) = List.length d).
    { rewrite zip_with_length; rewrite length_map; congruence. }
    assert (Hs2 : List.length (w [*] (map ofZ d [-] ps)) = List.length d).
    { rewrite zip_with_length; congruence. }
    unfold ips, matvec, matmul, scale_rows. rewrite !length_map.
    rewrite zip_with_length; congruence. }
  assert (C1 : List.length (inf_cell (w_treat_pre W) y) = List.length d)
    by (rewrite inf_cell_length; congruence).
  assert (C2 : List.length (inf_cell (w_treat_post W) y) = List.length d)
    by (rewrite inf_cell_length; congruence).
  assert (C3 : List.length (inf_cell (w_cont_pre W) y) = List.length d)
    by (rewrite inf_cell_length; congruence).
  assert (C4 : List.length (inf_cell (w_cont_post W) y) = List.length d)
    by (rewrite inf_cell_length; congruence).
  rewrite np_sum_zip_sub, np_sum_zip_sub, np_sum_zip_add, np_sum_zip_sub
    by (rewrite ?zip_with_length; rewrite ?zip_with_length; congruence).
  rewrite !inf_cell_sum by (congruence || assumption).
  ring.
Qed.
End InfluenceMean.

(** ** Exactly additive outcomes, and the two periods exchanged *)

Section DifferenceInDifferences.
Local Open Scope R_scope.
Local Abbreviation sqrt := R_sqrt.sqrt.

Lemma map_scale_zero (l : list R) :
  map (fun v => 0 * v) l = repeat 0 (List.length l).
Proof.
  induction l as [|x l IH]; simpl; [reflexivity|]. rewrite IH. f_equal. ring.
Qed.

(** Outcomes that are exactly a constant, a group effect, a period effect
    and an effect [tau] on the treated units after treatment: on regular
    input the estimate is [tau], and without bootstrap the influence function
    is zero at every unit, the standard error is zero and both bounds are
    [tau]. *)
Theorem additive_outcomes_are_recovered :
  forall (E : Collab R) (fit : LogitResults R) (y : list R) (post d : list Z)
         (covariates : option (list (list R))) (i_weights : option (list R))
         (boot_type : string) (nboot : Z) (influence_func : bool)
         (trim_level a b c tau : R),
    regular_input fit trim_level y post d covariates i_weights ->
    Logit_fit E d (X_of d covariates) (w_of d i_weights) = inr fit ->
    (forall i : nat,
        (i < List.length d)%nat ->
        nth i y 0 = a + b * IZR (nth i d 0%Z) + c * IZR (nth i post 0%Z)
                    + tau * IZR (nth i d 0%Z) * IZR (nth i post 0%Z)) ->
    exists (ws : list string) (r : StdIPWDIDRCResult R),
      std_ipw_did_rc E y post d covariates i_weights false boot_type nboot
                     influence_func trim_level = (ws, inr r) /\
      att r = tau /\ se r = 0 /\ uci r = tau /\ lci r = tau /\
      att_inf_func r
      = (if influence_func then Some (repeat 0 (List.length d)) else None).
Proof.
  intros E fit y post d covariates i_weights boot_type nboot influence_func
         trim_level a b c tau Hreg Hfit Hyi.
  destruct (regular_cells Hreg) as [Hg [[_ P1] [[_ P2] [[_ P3] [_ P4]]]]].
  destruct Hreg as [Hok [Hd [Hpost [Hshape _]]]].
  pose proof (inf_of_length E trim_level Hshape) as Hinflen.
  destruct Hshape as [Hy [Hlpost [Hlw [HX Hlps]]]].
  eexists. eexists.
  split; [apply std_ipw_did_rc_run with (fit := fit);
          try assumption; apply no_nan_R|].
  cbn [result_of att se uci lci att_inf_func inference negb fst snd].
  set (X := X_of d covariates) in *. set (w := w_of d i_weights) in *.
  set (ps := ps_of fit X) in *.
  assert (Hlw' : List.length w = List.length d)
    by (unfold w, w_of, normalize_weights; now rewrite length_map).
  assert (Hlps' : List.length ps = List.length d)
    by (unfold ps, ps_of; now rewrite length_map).
  destruct (build_weights_length trim_level _ _ _ _ Hlw' Hlps' Hlpost)
    as [L1 [L2 [L3 L4]]].
  assert (Hnth := fun i Hi =>
            @build_weights_nth trim_level w ps d post i Hlw' Hlps' Hlpost Hi).
  cbn zeta in Hnth. unfold W_of in *.
  set (W := build_weights trim_level w ps d post) in *.
  set (y0 := map (fun v => 0 * v) y).
  assert (Hcell : forall (wc : list R) (k : R),
             List.length wc = List.length d -> 0 < np_sum wc ->
             (forall i, (i < List.length d)%nat ->
                        nth i wc 0 = 0 \/ nth i y 0 = k) ->
             att_cell wc y = k /\
             inf_cell wc y = inf_cell wc y0 /\
             (forall Z, m2 wc y Z = m2 wc y0 Z)).
  { intros wc k Hl Hs Hz.
    destruct (@cell_shift wc y0 y k) as [Ha [Hi Hm]].
    - unfold y0. rewrite length_map. congruence.
    - unfold y0. now rewrite length_map.
    - now right.
    - unfold y0. rewrite length_map. intros i Hi. rewrite Hy in Hi.
      destruct (Hz i Hi) as [H0 | Hk]; [now left | right].
      rewrite nth_map_scale, Hk. ring.
    - split; [|split; assumption].
      rewrite Ha. unfold y0. rewrite att_cell_scale. ring. }
  destruct (Hcell (w_treat_pre W) (a + b) L1 P1) as [A1 [I1 _]].
  { intros i Hi. destruct (Hnth i Hi) as [-> _]. rewrite (Hyi i Hi).
    destruct (binary_nth i Hd) as [-> | ->];
      destruct (binary_nth i Hpost) as [-> | ->]; cbn [Z.sub Z.opp Z.pos_sub Z.add];
      ((left; ring) || (right; ring)). }
  destruct (Hcell (w_treat_post W) (a + b + c + tau) L2 P2) as [A2 [I2 _]].
  { intros i Hi. destruct (Hnth i Hi) as [_ [-> _]]. rewrite (Hyi i Hi).
    destruct (binary_nth i Hd) as [-> | ->];
      destruct (binary_nth i Hpost) as [-> | ->];
      ((left; ring) || (right; ring)). }
  destruct (Hcell (w_cont_pre W) a L3 P3) as [A3 [I3 M3]].
  { intros i Hi. destruct (Hnth i Hi) as [_ [_ [-> _]]]. rewrite (Hyi i Hi).
    unfold Rdiv.
    destruct (binary_nth i Hd) as [-> | ->];
      destruct (binary_nth i Hpost) as [-> | ->]; cbn [Z.sub Z.opp Z.pos_sub Z.add];
      ((left; ring) || (right; ring)). }
  destruct (Hcell (w_cont_post W) (a + c) L4 P4) as [A4 [I4 M4]].
  { intros i Hi. destruct (Hnth i Hi) as [_ [_ [_ ->]]]. rewrite (Hyi i Hi).
    unfold Rdiv.
    destruct (binary_nth i Hd) as [-> | ->];
      destruct (binary_nth i Hpost) as [-> | ->]; cbn [Z.sub Z.opp Z.pos_sub Z.add];
      ((left; ring) || (right; ring)). }
  assert (Hatt : ipw_att_of W y = tau).
  { unfold ipw_att_of. rewrite A1, A2, A3, A4. cbn [nsub Num_R]. ring. }
  assert (Hinf : inf_of E trim_level y d post X w ps
                 = repeat 0 (List.length d)).
  { transitivity (map (fun v => 0 * v) (inf_of E trim_level y d post X w ps));
      [|now rewrite map_scale_zero, Hinflen].
    unfold inf_of, W_of. fold W. rewrite <- influence_function_scale. fold y0.
    unfold influence_function. cbn zeta.
    now rewrite I1, I2, I3, I4, M3, M4. }
  rewrite Hatt, Hinf.
  assert (Hsd : np_std_ddof1 (repeat 0 (List.length d)) = 0).
  { rewrite <- (repeat_length 0 (List.length d)) at 1.
    rewrite <- map_scale_zero, np_std_ddof1_scale, Rabs_R0. ring. }
  rewrite Hsd. cbn [nadd nsub nmul ndiv Num_R]. unfold Rdiv.
  repeat split; try ring. now destruct influence_func.
Qed.

Lemma zip_with_flip {A B C : Type} (f : A -> B -> C) (xs : list A) (ys : list B) :
  zip_with f xs ys = zip_with (fun b a => f a b) ys xs.
Proof.
  revert ys. induction xs as [|x xs IH]; intros [|y ys]; simpl; try reflexivity.
  now rewrite IH.
Qed.

Lemma zip_sub_swap (u v : list R) :
  u [-] v = map (fun x => -1 * x) (v [-] u).
Proof.
  rewrite map_zip_with, zip_with_flip. apply zip_with_ext.
  intros x y. cbn [nsub Num_R]. ring.
Qed.

Lemma existsb_exchange (z : Z) (l : list Z) :
  existsb (fun x => (x =? z)%Z) (map (fun t => 1 - t)%Z l)
  = existsb (fun x => (x =? 1 - z)%Z) l.
Proof.
  induction l as [|t l IH]; [reflexivity|]. cbn [existsb map]. rewrite IH. f_equal.
  destruct (Z.eqb_spec (1 - t) z), (Z.eqb_spec t (1 - z)); try reflexivity; lia.
Qed.

(** The weight vectors with the two periods exchanged: those of the
    pre-treatment cells and those of the post-treatment cells change places. *)
Lemma build_weights_exchange (trim_level : R) (w ps : list R) (d post : list Z) :
  let W := build_weights trim_level w ps d post in
  build_weights trim_level w ps d (map (fun t => 1 - t)%Z post)
  = {| w_treat_pre := w_treat_post W; w_treat_post := w_treat_pre W;
       w_cont_pre := w_cont_post W; w_cont_post := w_cont_pre W |}.
Proof.
  cbn zeta. unfold build_weights. cbn zeta.
  cbn [w_treat_pre w_treat_post w_cont_pre w_cont_post].
  rewrite !map_map.
  assert (Hpost : map (fun x => ofZ (1 - (1 - x))) post = map (@ofZ R _) post).
  { apply map_ext. intros t. f_equal. lia. }
  rewrite Hpost. reflexivity.
Qed.

(** The two periods exchanged: with [1 - post] for [post] the estimate and
    the influence function change sign, the standard error stays, and the
    bounds change sign and places. The warnings are the same. *)
Theorem exchanging_periods_changes_sign :
  forall (E : Collab R) (fit : LogitResults R) (y : list R) (post d : list Z)
         (covariates : option (list (list R))) (i_weights : option (list R))
         (boot_type : string) (nboot : Z) (influence_func : bool)
         (trim_level : R),
    weights_ok i_weights = true ->
    groups_ok d post = true ->
    Logit_fit E d (X_of d covariates) (w_of d i_weights) = inr fit ->
    well_shaped fit y post d covariates i_weights ->
    exists (ws : list string) (r r' : StdIPWDIDRCResult R),
      std_ipw_did_rc E y post d covariates i_weights false boot_type nboot
                     influence_func trim_level = (ws, inr r) /\
      std_ipw_did_rc E y (map (fun t => 1 - t)%Z post) d covariates i_weights
                     false boot_type nboot influence_func trim_level
      = (ws, inr r') /\
      att r' = - att r /\
      se r' = se r /\
      uci r' = - lci r /\
      lci r' = - uci r /\
      att_inf_func r' = option_map (map Ropp) (att_inf_func r).
Proof.
  intros E fit y post d covariates i_weights boot_type nboot influence_func
         trim_level Hok Hg Hfit _.
  assert (Hg' : groups_ok d (map (fun t => 1 - t)%Z post) = true).
  { unfold groups_ok in *. rewrite !existsb_exchange. cbn [Z.sub Z.opp Z.pos_sub Z.add].
    repeat (apply andb_true_iff in Hg; destruct Hg as [Hg ?]).
    repeat (apply andb_true_iff; split); assumption. }
  eexists. eexists. eexists.
  split; [apply std_ipw_did_rc_run with (fit := fit);
          try assumption; apply no_nan_R|].
  split; [apply std_ipw_did_rc_run with (fit := fit);
          try assumption; apply no_nan_R|].
  cbn [result_of att se uci lci att_inf_func inference negb fst snd].
  set (X := X_of d covariates). set (w := w_of d i_weights).
  set (ps := ps_of fit X).
  assert (Hatt : ipw_att_of (W_of trim_level d (map (fun t => 1 - t)%Z post) w ps) y
                 = - ipw_att_of (W_of trim_level d post w ps) y).
  { unfold W_of. rewrite build_weights_exchange. cbn zeta. unfold ipw_att_of.
    cbn [w_treat_pre w_treat_post w_cont_pre w_cont_post nsub Num_R]. ring. }
  assert (Hinf : inf_of E trim_level y d (map (fun t => 1 - t)%Z post) X w ps
                 = map (fun v => -1 * v) (inf_of E trim_level y d post X w ps)).
  { unfold inf_of, W_of. rewrite build_weights_exchange. cbn zeta.
    unfold influence_function. cbn zeta.
    cbn [w_treat_pre w_treat_post w_cont_pre w_cont_post].
    set (W := build_weights trim_level w ps d post).
    rewrite (zip_sub_swap (inf_cell (w_treat_pre W) y)),
            (zip_sub_swap (inf_cell (w_cont_pre W) y)),
            (zip_sub_swap (m2 (w_cont_pre W) y X)).
    rewrite matvec_scale, zip_scale_add, zip_scale_sub. reflexivity. }
  rewrite Hatt, Hinf, np_std_ddof1_scale.
  replace (Rabs (-1)) with 1 by (rewrite Rabs_left; lra).
  generalize (ipw_att_of (W_of trim_level d post w ps) y). intros att0.
  generalize (np_std_ddof1 (inf_of E trim_level y d post X w ps)).
  intros sd. generalize (nsqrt (ofnat (List.length d))). intros rn.
  generalize (@lit_1_96 R _). intros z.
  cbn [nadd nsub nmul ndiv Num_R]. unfold Rdiv.
  repeat split; try ring.
  destruct influence_func; cbn [negb option_map]; [|reflexivity].
  f_equal. apply map_ext. intros v. ring.
Qed.
End DifferenceInDifferences.

(** ** Further exact runs *)

Section FurtherExactRuns.
Local Open Scope R_scope.

Lemma half_below_default_trim :
  np_clip lit_1e_6 (ofZ 1 - lit_1e_6) (@one_half R _) < default_trim_level.
Proof.
  rewrite np_clip_id; unfold lit_1e_6, default_trim_level, one_half;
    cbn [ndiv nsub ofZ Num_R]; lra.
Qed.

(** The four-unit sample is regular: one unit of weight one in each cell,
    with propensity 1/2 below the default trim level. *)
Lemma regular_fit4 :
  regular_input fit4 default_trim_level y4 post4 d4 None None.
Proof.
  split; [reflexivity|]. split; [apply binary_d4|].
  split; [apply binary_post4|]. split; [repeat split; reflexivity|].
  cbn zeta.
  assert (Hw : forall i, (i < 4)%nat ->
                 0 < nth i (raw_weights (T := R) (List.length d4) None) 0).
  { intros i Hi. do 4 (destruct i as [|i]; [simpl; lra|]). lia. }
  assert (Hps : forall i, (i < 4)%nat ->
                  nth i (ps_of fit4 (X_of d4 None)) 0 < default_trim_level).
  { intros i Hi.
    do 4 (destruct i as [|i]; [exact half_below_default_trim|]). lia. }
  repeat split.
  - exists 1%nat. repeat split; try reflexivity; [simpl; lia | apply Hw; lia |].
    intros _. apply Hps. lia.
  - exists 0%nat. repeat split; try reflexivity; [simpl; lia | apply Hw; lia |].
    intros _. apply Hps. lia.
  - exists 3%nat. repeat split; try reflexivity; [simpl; lia | apply Hw; lia |].
    intros _. apply Hps. lia.
  - exists 2%nat. repeat split; try reflexivity; [simpl; lia | apply Hw; lia |].
    intros _. apply Hps. lia.
Qed.

Lemma extreme_trim_levels_witness :
  trim_mask (T := R) 1 d4 (ps_of fit4 (X_of d4 None)) = map (fun _ => true) d4.
Proof.
  apply (proj1 (@extreme_trim_levels fit4 (X_of d4 None) d4 1 eq_refl)).
  unfold lit_1e_6. cbn [ndiv ofZ Num_R]. lra.
Defined.

Lemma treated_weights_ignore_propensity_witness :
  let W := build_weights default_trim_level [1; 1; 1; 1]
                         [one_half; one_half; one_half; one_half] d4 post4 in
  let W' := build_weights one_half [1; 1; 1; 1]
                          [lit_0_25; lit_0_75; lit_0_25; lit_0_75] d4 post4 in
  w_treat_pre W = w_treat_pre W' /\
  w_treat_post W = w_treat_post W' /\
  w_treat_pre W = [1; 1; 1; 1] [*] map ofZ d4 [*] map (fun t => ofZ (1 - t)) post4 /\
  w_treat_post W = [1; 1; 1; 1] [*] map ofZ d4 [*] map ofZ post4.
Proof.
  apply (@treated_weights_ignore_propensity default_trim_level one_half
           [1; 1; 1; 1] [one_half; one_half; one_half; one_half]
           [lit_0_25; lit_0_75; lit_0_25; lit_0_75] d4 post4);
    try reflexivity.
  apply binary_d4.
Defined.

Lemma weights_are_capped_witness :
  let w := w_of d4 (@None (list R)) in
  let W := W_of default_trim_level d4 post4 w (ps_of fit4 (X_of d4 None)) in
  nth 2 (w_treat_pre W) 0 <= nth 2 w 0 /\
  nth 2 (w_treat_post W) 0 <= nth 2 w 0 /\
  nth 2 (w_cont_pre W) 0 <= 999999 * nth 2 w 0 /\
  nth 2 (w_cont_post W) 0 <= 999999 * nth 2 w 0.
Proof.
  apply (@weights_are_capped fit4 default_trim_level d4 post4 None None);
    try reflexivity; [|apply binary_d4 | apply binary_post4].
  unfold d4. cbn [raw_weights List.length repeat].
  rewrite !np_sum_cons, np_sum_nil. cbn [ofZ Num_R]. lra.
Defined.

Lemma att_within_twice_the_outcome_range_witness :
  exists (ws : list string) (r : StdIPWDIDRCResult R),
    std_ipw_did_rc (T := R) model4 y4 post4 d4 None None false "weighted" 999 false
                   default_trim_level = (ws, inr r) /\
    Rabs (att r) <= 2 * (5 - 1).
Proof.
  apply (@att_within_twice_the_outcome_range model4 fit4 y4 post4 d4 None None
           false "weighted"%string 999%Z false default_trim_level 1 5);
    [apply regular_fit4 | reflexivity |].
  unfold y4. cbn [map ofZ Num_R].
  repeat (apply Forall_cons; [lra|]). apply Forall_nil.
Defined.




Lemma outcome_scaling_witness :
  exists (ws : list string) (r r' : StdIPWDIDRCResult R),
    std_ipw_did_rc (T := R) model4 y4 post4 d4 None None false "weighted" 999 true
                   default_trim_level = (ws, inr r) /\
    std_ipw_did_rc (T := R) model4 (map (fun v => -2 * v) y4) post4 d4 None None
                   false "weighted" 999 true default_trim_level = (ws, inr r') /\
    att r' = -2 * att r /\
    se r' = Rabs (-2) * se r.
Proof.
  destruct (@outcome_scaling model4 fit4 y4 post4 d4 None None
              "weighted"%string 999%Z true default_trim_level (-2)
              eq_refl eq_refl eq_refl
              (conj eq_refl (conj eq_refl (conj eq_refl (conj eq_refl eq_refl)))))
    as [ws [r [r' [Hrun [Hrun' [Hatt [Hse _]]]]]]].
  exists ws, r, r'. repeat split; assumption.
Defined.

Lemma influence_function_sum_witness :
  exists (ws : list string) (r : StdIPWDIDRCResult R) (inf : list R),
    std_ipw_did_rc (T := R) model4 y4 post4 d4 None None false "weighted" 999 true
                   default_trim_level = (ws, inr r) /\
    att_inf_func r = Some inf /\
    np_sum inf
    = - np_sum (inf_cont_ps_of model4 default_trim_level y4 d4 post4
                               (X_of d4 None) (w_of d4 None)
                               (ps_of fit4 (X_of d4 None))).
Proof.
  apply (@influence_function_sum model4 fit4);
    [apply regular_fit4 | reflexivity].
Defined.

Lemma additive_outcomes_are_recovered_witness :
  exists (ws : list string) (r : StdIPWDIDRCResult R),
    std_ipw_did_rc (T := R) model4 y4 post4 d4 None None false "weighted" 999 true
                   default_trim_level = (ws, inr r) /\
    att r = 3 /\ se r = 0 /\ uci r = 3 /\ lci r = 3 /\
    att_inf_func r = Some (repeat 0 (List.length d4)).
Proof.
  apply (@additive_outcomes_are_recovered model4 fit4 y4 post4 d4 None None
           "weighted"%string 999%Z true default_trim_level 2 (-1) 1 3);
    [apply regular_fit4 | reflexivity |].
  intros i Hi.
  do 4 (destruct i as [|i];
        [cbn [nth y4 d4 post4 map ofZ Num_R]; lra|]).
  simpl in Hi. lia.
Defined.

Lemma exchanging_periods_changes_sign_witness :
  exists (ws : list string) (r r' : StdIPWDIDRCResult R),
    std_ipw_did_rc (T := R) model4 y4 post4 d4 None None false "weighted" 999 true
                   default_trim_level = (ws, inr r) /\
    std_ipw_did_rc (T := R) model4 y4 (map (fun t => 1 - t)%Z post4) d4 None None
                   false "weighted" 999 true default_trim_level = (ws, inr r') /\
    att r' = - att r /\
    se r' = se r.
Proof.
  destruct (@exchanging_periods_changes_sign model4 fit4 y4 post4 d4 None None
              "weighted"%string 999%Z true default_trim_level
              eq_refl eq_refl eq_refl
              (conj eq_refl (conj eq_refl (conj eq_refl (conj eq_refl eq_refl)))))
    as [ws [r [r' [Hrun [Hrun' [Hatt [Hse _]]]]]]].
  exists ws, r, r'. repeat split; assumption.
Defined.
End FurtherExactRuns.
